(** * JsonRpcClient: connection lifecycle and synchronous-call bridging

    A shallow embedding of the WebSocket session ([WebSocket.cpp]), its
    single-slot blocking hand-off ([SynchronousBlockingQueue.cpp]) and the
    client facade ([WebSocketClient.cpp]).

    - Member variables become record fields with the names of the C++
      members; pointers into libwebsockets are addresses ([ptr], 0 is
      [nullptr]).
    - Calls into libwebsockets, pthreads and the C library are not
      executed: each one is appended to a trace of [Effect]s, and what the
      library returns is an argument of the function that calls it.  A
      store to a member of the session is traced too ([store]), so that a
      trace shows which stores sit between a lock and its unlock.
    - A thread that waits (a condition-variable wait, a sleep loop or a
      [pthread_join]) is run against an environment: a list whose n-th
      element is what the other threads do during the n-th suspension.
      When the environment is used up and the awaited condition still
      fails, the call is [Blocked].  The teardown of the client also
      takes a turn of the environment where it goes on without a lock
      from a test to the action that relies on it. *)

From Stdlib Require Import ZArith List String Ascii Bool Lia DecimalString.
Import ListNotations.

Local Open Scope string_scope.
Local Open Scope list_scope.

(** ** Blocking calls *)

Section Blocking.

(** [W] is the memory shared between the threads, [T] one turn of the
    other threads. *)
Context {W T : Type}.
Variable interleave : T -> W -> W.

Inductive Outcome (A : Type) : Type :=
| Returned (result : A) (w : W) (rest : list T)
| Blocked (w : W).

(** [while (!cond) pause;] where the other threads take one turn during
    every [pause]. *)
Fixpoint await (cond : W -> bool) (pause : W -> W) (env : list T) (w : W)
  : Outcome unit :=
  if cond w then Returned unit tt w env
  else match env with
       | [] => Blocked unit (pause w)
       | turn :: env' => await cond pause env' (interleave turn (pause w))
       end.

End Blocking.

Arguments Returned {W T A} result w rest.
Arguments Blocked {W T A} w.

(** ** How a call ends *)

(** How a C++ call can end other than by returning: with an exception, or
    in behaviour the language leaves undefined. *)
Inductive Completion (A : Type) : Type :=
| Normal (a : A)
| Throws (what : string)
| Undefined.
Arguments Normal {A} a.
Arguments Throws {A} what.
Arguments Undefined {A}.

(** ** SynchronousBlockingQueue.cpp *)

Module SynchronousBlockingQueue.

Record t (E : Type) : Type := mk {
  ready_to_unlock_ : bool;
  element_ : E
}.
Arguments mk {E} _ _.
Arguments ready_to_unlock_ {E} _.
Arguments element_ {E} _.

Section Queue.
Context {E : Type}.

(** The constructor initialises the flag only; [element_] is
    default-constructed ([dflt]). *)
Definition new (dflt : E) : t E :=
  {| ready_to_unlock_ := false; element_ := dflt |}.

(** [element_ = e; ready_to_unlock_ = true;] under the queue's mutex, then
    [notify_one]. *)
Definition Offer (e : E) (q : t E) : t E :=
  {| ready_to_unlock_ := true; element_ := e |}.

(** First statement of [Take]: [ready_to_unlock_ = false;], before the
    mutex is taken. *)
Definition Take_reset (q : t E) : t E :=
  {| ready_to_unlock_ := false; element_ := element_ q |}.

(** [Take] on a queue that lives inside the shared memory [W] ([queue]
    reads it, [set_queue] writes it back):
    [ready_to_unlock_ = false; while (!ready_to_unlock_) cv_.wait(lk);
     return element_;] *)
Section Take.
Context {W T : Type}.
Variable interleave : T -> W -> W.
Variable queue : W -> t E.
Variable set_queue : t E -> W -> W.

Definition Take (env : list T) (w : W) : Outcome (W:=W) (T:=T) E :=
  let w0 := set_queue (Take_reset (queue w)) w in
  match await interleave (fun w' => ready_to_unlock_ (queue w'))
              (fun w' => w') env w0 with
  | Returned _ w' rest => Returned (element_ (queue w')) w' rest
  | Blocked w' => Blocked w'
  end.

End Take.

(** The hand-off on its own: one turn of the environment is the list of
    values the producers offer during one wait of the consumer (none: a
    spurious wake-up). *)
Definition offers (es : list E) (q : t E) : t E :=
  fold_left (fun q' e => Offer e q') es q.

Definition Take_alone (env : list (list E)) (q : t E)
  : Outcome (W:=t E) (T:=list E) E :=
  Take offers (fun q' => q') (fun q' _ => q') env q.

End Queue.

End SynchronousBlockingQueue.

(** ** WebSocketMessageHandler.h *)

(** [Handle] is pure virtual and implemented outside this repository.  A
    handler reaches the session only through the queue it was given by
    [SetQueue], so a handler is modelled by the values it offers to that
    queue, in order, when it is handed a message. *)
Record WebSocketMessageHandler : Type := {
  Handle : string -> list string
}.

(** ** WebSocket.h / WebSocket.cpp *)

Definition ptr : Type := N.
Definition nullptr : ptr := 0%N.

Inductive WebSocketConnectState : Type :=
| DISCONNECTED
| CONNECTING
| CONNECTED.

Definition WebSocketConnectState_eqb (a b : WebSocketConnectState) : bool :=
  match a, b with
  | DISCONNECTED, DISCONNECTED => true
  | CONNECTING, CONNECTING => true
  | CONNECTED, CONNECTED => true
  | _, _ => false
  end.

(** The callback reasons of libwebsockets that [OnWebSocketEvent]
    distinguishes; every other reason takes the [default] branch. *)
Inductive lws_callback_reasons : Type :=
| LWS_CALLBACK_CLIENT_ESTABLISHED
| LWS_CALLBACK_CLIENT_CONNECTION_ERROR
| LWS_CALLBACK_CLOSED
| LWS_CALLBACK_CLIENT_RECEIVE
| LWS_CALLBACK_CLIENT_WRITEABLE
| LWS_CALLBACK_OTHER (code : Z).

Inductive lws_write_protocol : Type :=
| LWS_WRITE_TEXT.

(** Members of [WebSocket] that are assigned after construction. *)
Inductive Field : Type :=
| F_context
| F_handle
| F_connection_state
| F_writable
| F_enqueued_messages
| F_incoming_message_handler
| F_watchdog_thread_running.

(** A [const char *] as a library receives it: the address of the bytes of
    a string that is alive during the call, or an address inside a
    [std::string] that has been destroyed since [c_str()] was taken.  What
    is read through a dangling pointer is not defined. *)
Inductive c_str : Type :=
| live (bytes : string)
| dangling.

Inductive Effect : Type :=
| pthread_mutex_init
| pthread_mutex_lock
| pthread_mutex_unlock
| pthread_mutex_destroy
| pthread_create
| pthread_join
| pthread_exit
| usleep (usec : Z)
| sleep (seconds : Z)
| lws_create_context (protocol : c_str) (result : ptr)
| lws_client_connect (context : ptr) (address : c_str) (port : Z)
    (ssl_connection : Z) (path host origin : c_str) (result : ptr)
| lws_service (context : ptr) (timeout_ms : Z)
| lws_cancel_service (context : ptr)
| lws_context_destroy (context : ptr)
| lws_callback_on_writable (wsi : ptr)
| lws_write (wsi : ptr) (buf : string) (len : nat) (wp : lws_write_protocol)
| call_Handle (message : string)
| null_dereference
| delete_queue
| store (f : Field).

Record WebSocket : Type := {
  host_ : string;
  port_ : Z;
  protocol_name_ : string;
  path_ : string;
  context_ : ptr;
  handle_ : ptr;
  connection_state_ : WebSocketConnectState;
  writable_ : bool;
  enqueued_messages_ : list string;
  incoming_message_handler_ : option WebSocketMessageHandler;
  queue_ : SynchronousBlockingQueue.t string;
  watchdog_thread_running_ : bool
}.

Definition with_context (v : ptr) (ws : WebSocket) : WebSocket :=
  {| host_ := host_ ws; port_ := port_ ws;
     protocol_name_ := protocol_name_ ws; path_ := path_ ws;
     context_ := v; handle_ := handle_ ws;
     connection_state_ := connection_state_ ws; writable_ := writable_ ws;
     enqueued_messages_ := enqueued_messages_ ws;
     incoming_message_handler_ := incoming_message_handler_ ws;
     queue_ := queue_ ws;
     watchdog_thread_running_ := watchdog_thread_running_ ws |}.

Definition with_handle (v : ptr) (ws : WebSocket) : WebSocket :=
  {| host_ := host_ ws; port_ := port_ ws;
     protocol_name_ := protocol_name_ ws; path_ := path_ ws;
     context_ := context_ ws; handle_ := v;
     connection_state_ := connection_state_ ws; writable_ := writable_ ws;
     enqueued_messages_ := enqueued_messages_ ws;
     incoming_message_handler_ := incoming_message_handler_ ws;
     queue_ := queue_ ws;
     watchdog_thread_running_ := watchdog_thread_running_ ws |}.

Definition with_connection_state (v : WebSocketConnectState) (ws : WebSocket)
  : WebSocket :=
  {| host_ := host_ ws; port_ := port_ ws;
     protocol_name_ := protocol_name_ ws; path_ := path_ ws;
     context_ := context_ ws; handle_ := handle_ ws;
     connection_state_ := v; writable_ := writable_ ws;
     enqueued_messages_ := enqueued_messages_ ws;
     incoming_message_handler_ := incoming_message_handler_ ws;
     queue_ := queue_ ws;
     watchdog_thread_running_ := watchdog_thread_running_ ws |}.

Definition with_writable (v : bool) (ws : WebSocket) : WebSocket :=
  {| host_ := host_ ws; port_ := port_ ws;
     protocol_name_ := protocol_name_ ws; path_ := path_ ws;
     context_ := context_ ws; handle_ := handle_ ws;
     connection_state_ := connection_state_ ws; writable_ := v;
     enqueued_messages_ := enqueued_messages_ ws;
     incoming_message_handler_ := incoming_message_handler_ ws;
     queue_ := queue_ ws;
     watchdog_thread_running_ := watchdog_thread_running_ ws |}.

Definition with_enqueued_messages (v : list string) (ws : WebSocket)
  : WebSocket :=
  {| host_ := host_ ws; port_ := port_ ws;
     protocol_name_ := protocol_name_ ws; path_ := path_ ws;
     context_ := context_ ws; handle_ := handle_ ws;
     connection_state_ := connection_state_ ws; writable_ := writable_ ws;
     enqueued_messages_ := v;
     incoming_message_handler_ := incoming_message_handler_ ws;
     queue_ := queue_ ws;
     watchdog_thread_running_ := watchdog_thread_running_ ws |}.

Definition with_incoming_message_handler
  (v : option WebSocketMessageHandler) (ws : WebSocket) : WebSocket :=
  {| host_ := host_ ws; port_ := port_ ws;
     protocol_name_ := protocol_name_ ws; path_ := path_ ws;
     context_ := context_ ws; handle_ := handle_ ws;
     connection_state_ := connection_state_ ws; writable_ := writable_ ws;
     enqueued_messages_ := enqueued_messages_ ws;
     incoming_message_handler_ := v;
     queue_ := queue_ ws;
     watchdog_thread_running_ := watchdog_thread_running_ ws |}.

Definition with_queue (v : SynchronousBlockingQueue.t string)
  (ws : WebSocket) : WebSocket :=
  {| host_ := host_ ws; port_ := port_ ws;
     protocol_name_ := protocol_name_ ws; path_ := path_ ws;
     context_ := context_ ws; handle_ := handle_ ws;
     connection_state_ := connection_state_ ws; writable_ := writable_ ws;
     enqueued_messages_ := enqueued_messages_ ws;
     incoming_message_handler_ := incoming_message_handler_ ws;
     queue_ := v;
     watchdog_thread_running_ := watchdog_thread_running_ ws |}.

Definition with_watchdog_thread_running (v : bool) (ws : WebSocket)
  : WebSocket :=
  {| host_ := host_ ws; port_ := port_ ws;
     protocol_name_ := protocol_name_ ws; path_ := path_ ws;
     context_ := context_ ws; handle_ := handle_ ws;
     connection_state_ := connection_state_ ws; writable_ := writable_ ws;
     enqueued_messages_ := enqueued_messages_ ws;
     incoming_message_handler_ := incoming_message_handler_ ws;
     queue_ := queue_ ws;
     watchdog_thread_running_ := v |}.

(** *** Methods: state passing with a trace of effects *)

Definition M (A : Type) : Type := WebSocket -> A * WebSocket * list Effect.

Definition ret {A : Type} (a : A) : M A := fun ws => (a, ws, []).

Definition bind {A B : Type} (c : M A) (k : A -> M B) : M B :=
  fun ws =>
    let '(a, ws1, tr1) := c ws in
    let '(b, ws2, tr2) := k a ws1 in
    (b, ws2, tr1 ++ tr2).

Definition emit (e : Effect) : M unit := fun ws => (tt, ws, [e]).

Definition read {A : Type} (f : WebSocket -> A) : M A :=
  fun ws => (f ws, ws, []).

Definition assign (f : Field) (upd : WebSocket -> WebSocket) : M unit :=
  fun ws => (tt, upd ws, [store f]).

Declare Scope session_scope.
Delimit Scope session_scope with session.
Notation "x <- c ;; k" := (bind c (fun x => k))
  (at level 61, c at next level, right associativity) : session_scope.
Notation "c ;; k" := (bind c (fun _ => k))
  (at level 61, right associativity) : session_scope.
Local Open Scope session_scope.

Definition value_of {A : Type} (r : A * WebSocket * list Effect) : A :=
  fst (fst r).
Definition state_of {A : Type} (r : A * WebSocket * list Effect) : WebSocket :=
  snd (fst r).
Definition trace_of {A : Type} (r : A * WebSocket * list Effect)
  : list Effect := snd r.

(** [WebSocket::WebSocket]: the member initialisers, then the mutex and the
    watchdog thread. *)
Definition WebSocket_new (host : string) (port : Z) (protocol path : string)
  : WebSocket * list Effect :=
  ({| host_ := host; port_ := port;
      protocol_name_ := protocol; path_ := path;
      context_ := nullptr; handle_ := nullptr;
      connection_state_ := DISCONNECTED; writable_ := false;
      enqueued_messages_ := [];
      incoming_message_handler_ := None;
      queue_ := SynchronousBlockingQueue.new EmptyString;
      watchdog_thread_running_ := false |},
   [pthread_mutex_init; pthread_create]).

Definition SetIncomingMessageHandler (handler : WebSocketMessageHandler)
  : M unit :=
  assign F_incoming_message_handler
         (with_incoming_message_handler (Some handler)).

Definition GetIncomingMessageHandler : M (option WebSocketMessageHandler) :=
  read incoming_message_handler_.

Definition GetHost : M string := read host_.
Definition GetPort : M Z := read port_.

(** [std::to_string(int)]. *)
Definition to_string (n : Z) : string := NilZero.string_of_int (Z.to_int n).

Definition GetHostAddress : M string :=
  read (fun ws => String.append (host_ ws)
                    (String.append ":" (to_string (port_ ws)))).

Definition GetProtocolName : M string := read protocol_name_.
Definition GetServerUrlPath : M string := read path_.

Definition SetContext (context : ptr) : M unit :=
  assign F_context (with_context context).
Definition GetContext : M ptr := read context_.

Definition SetHandle (handle : ptr) : M unit :=
  assign F_handle (with_handle handle).
Definition GetHandle : M ptr := read handle_.

Definition SetConnectState (state : WebSocketConnectState) : M unit :=
  assign F_connection_state (with_connection_state state).
Definition GetConnectState : M WebSocketConnectState := read connection_state_.

Definition SetWritable (writable : bool) : M unit :=
  assign F_writable (with_writable writable).
Definition IsWritable : M bool := read writable_.

(** [enqueued_messages_.push_back(message)]. *)
Definition EnqueueMessage (message : string) : M unit :=
  assign F_enqueued_messages
         (fun ws => with_enqueued_messages (enqueued_messages_ ws ++ [message]) ws).

(** [!enqueued_messages_.empty()]. *)
Definition HasEnqueuedMessages : M bool :=
  read (fun ws => match enqueued_messages_ ws with [] => false | _ :: _ => true end).

(** [message = enqueued_messages_[0]; erase(begin())] when the queue has
    content; the default-constructed string otherwise. *)
Definition RemoveOldestEnqueuedMessage : M string :=
  has <- HasEnqueuedMessages ;;
  if has then
    message <- read (fun ws => hd EmptyString (enqueued_messages_ ws)) ;;
    assign F_enqueued_messages
           (fun ws => with_enqueued_messages (tl (enqueued_messages_ ws)) ws) ;;
    ret message
  else ret EmptyString.

(** The buffer is [malloc]ed with the padding libwebsockets asks for, the
    [message.length()] bytes of the message are copied behind the front
    padding, and that part of the buffer is what [lws_write] is given. *)
Definition WriteMessageToWebSocket (message : string) : M unit :=
  handle <- read handle_ ;;
  emit (lws_write handle message (String.length message) LWS_WRITE_TEXT) ;;
  assign F_writable (with_writable false) ;;
  emit (lws_callback_on_writable handle).

Definition SendAsync (message : string) : M unit :=
  emit pthread_mutex_lock ;;
  writable <- read writable_ ;;
  (if writable then WriteMessageToWebSocket message
   else EnqueueMessage message) ;;
  emit pthread_mutex_unlock.

Definition SetWatchDogThreadStarted : M unit :=
  emit pthread_mutex_lock ;;
  assign F_watchdog_thread_running (with_watchdog_thread_running true) ;;
  emit pthread_mutex_unlock.

Definition StopWatchDogThread : M unit :=
  emit pthread_mutex_lock ;;
  assign F_watchdog_thread_running (with_watchdog_thread_running false) ;;
  emit pthread_mutex_unlock.

Definition IsWatchDogThreadRunning : M bool := read watchdog_thread_running_.

(** What is read through a [char *] that points to the bytes of [s]: the
    bytes up to the first NUL.  [std::string message((char * ) in)] copies
    them, and a library that is handed [s.c_str()] sees them. *)
Fixpoint c_string (s : string) : string :=
  match s with
  | EmptyString => EmptyString
  | String c rest =>
      if Ascii.eqb c Ascii.zero then EmptyString else String c (c_string rest)
  end.

(** [GetIncomingMessageHandler()->Handle(message)]: the handler's offers
    land in the session's queue, the one [SetIncomingMessageHandler] gave
    it.  While no handler is set the call goes through [nullptr]: its
    behaviour is undefined and the call does not return. *)
Definition call_handler (message : string) : M (Completion unit) :=
  handler <- GetIncomingMessageHandler ;;
  match handler with
  | None => emit null_dereference ;; ret Undefined
  | Some h =>
      emit (call_Handle message) ;;
      (fun ws =>
         (Normal tt,
          with_queue (SynchronousBlockingQueue.offers (Handle h message)
                        (queue_ ws)) ws, []))
  end.

(** The session is recovered from [wsi] through the context's user
    pointer; it is the state the callback runs in.  The callback returns
    -1 or 0, unless the Receive branch ends in the undefined call of
    [call_handler]: then the mutex it took stays locked and nothing is
    returned. *)
Definition OnWebSocketEvent (wsi : ptr) (reason : lws_callback_reasons)
  (in_ : string) : M (Completion Z) :=
  if N.eqb wsi nullptr then ret (Normal (-1)%Z)
  else
    switch <-
      (match reason with
       | LWS_CALLBACK_CLIENT_ESTABLISHED =>
           emit pthread_mutex_lock ;;
           SetConnectState CONNECTED ;;
           SetHandle wsi ;;
           emit pthread_mutex_unlock ;;
           emit (lws_callback_on_writable wsi) ;;
           ret (Normal tt)
       | LWS_CALLBACK_CLIENT_CONNECTION_ERROR =>
           emit pthread_mutex_lock ;;
           SetConnectState DISCONNECTED ;;
           emit pthread_mutex_unlock ;;
           ret (Normal tt)
       | LWS_CALLBACK_CLOSED =>
           emit pthread_mutex_lock ;;
           SetConnectState DISCONNECTED ;;
           emit pthread_mutex_unlock ;;
           ret (Normal tt)
       | LWS_CALLBACK_CLIENT_RECEIVE =>
           let message := c_string in_ in
           emit pthread_mutex_lock ;;
           handled <- call_handler message ;;
           match handled with
           | Normal _ => emit pthread_mutex_unlock ;; ret (Normal tt)
           | Throws what => ret (Throws what)
           | Undefined => ret Undefined
           end
       | LWS_CALLBACK_CLIENT_WRITEABLE =>
           emit pthread_mutex_lock ;;
           has <- HasEnqueuedMessages ;;
           (if has then
              message <- RemoveOldestEnqueuedMessage ;;
              WriteMessageToWebSocket message
            else SetWritable true) ;;
           emit pthread_mutex_unlock ;;
           ret (Normal tt)
       | LWS_CALLBACK_OTHER _ => ret (Normal tt)
       end) ;;
    match switch with
    | Normal _ => ret (Normal 0%Z)
    | Throws what => ret (Throws what)
    | Undefined => ret Undefined
    end.

(** [s.c_str()] where [s] is a temporary: the pointer is good until the
    end of the full expression that made the temporary, and dangles from
    then on. *)
Definition c_str_of_temporary (s : string) (full_expression_over : bool)
  : c_str :=
  if full_expression_over then dangling else live (c_string s).

(** One turn of the [while] loop of [RunWatchdog].  [created] is what
    [lws_create_context] returns and [connected] what [lws_client_connect]
    returns, should the turn call them.

    The name in [protocols] is the [c_str()] of the string
    [GetProtocolName()] returns by value; that temporary is destroyed when
    the declaration of [protocols] ends, before [lws_create_context] is
    given the array.  The strings whose [c_str()] is an argument of
    [lws_client_connect] live until the call has returned. *)
Definition RunWatchdog_iteration (created connected : ptr) : M unit :=
  state <- GetConnectState ;;
  if negb (WebSocketConnectState_eqb DISCONNECTED state) then
    context <- GetContext ;;
    emit (lws_service context 500)
  else
    emit (usleep (50 * 1000)) ;;
    protocol <- GetProtocolName ;;
    emit (lws_create_context (c_str_of_temporary protocol true) created) ;;
    emit pthread_mutex_lock ;;
    SetContext created ;;
    context <- GetContext ;;
    host <- GetHost ;;
    port <- GetPort ;;
    path <- GetServerUrlPath ;;
    address <- GetHostAddress ;;
    origin <- GetHost ;;
    emit (lws_client_connect context (c_str_of_temporary host false) port 0
            (c_str_of_temporary path false)
            (c_str_of_temporary address false)
            (c_str_of_temporary origin false) connected) ;;
    (if negb (N.eqb connected nullptr) then SetConnectState CONNECTING
     else ret tt) ;;
    emit pthread_mutex_unlock.

(** What [RunWatchdog] does once [IsWatchDogThreadRunning()] is false. *)
Definition RunWatchdog_exit : M unit :=
  context <- GetContext ;;
  emit (lws_cancel_service context) ;;
  context' <- GetContext ;;
  (if negb (N.eqb context' nullptr) then
     context'' <- GetContext ;; emit (lws_context_destroy context'')
   else ret tt) ;;
  emit pthread_exit.

(** *** The threads that share a session *)

(** One atomic action of a thread other than the one under study: a call
    of [SendAsync] by another caller, a callback of the transport, the
    start of the watchdog or one turn of its loop. *)
Inductive Op : Type :=
| CallSendAsync (message : string)
| Callback (wsi : ptr) (reason : lws_callback_reasons) (in_ : string)
| WatchdogStarted
| WatchdogIteration (created connected : ptr).

Definition step (op : Op) : M unit :=
  match op with
  | CallSendAsync message => SendAsync message
  | Callback wsi reason in_ => OnWebSocketEvent wsi reason in_ ;; ret tt
  | WatchdogStarted => SetWatchDogThreadStarted
  | WatchdogIteration created connected =>
      RunWatchdog_iteration created connected
  end.

(** A schedule of the other threads.  A callback that ends in undefined
    behaviour ends the program with it: of a schedule that goes on after
    one, the part up to it is what describes an execution. *)
Fixpoint run (ops : list Op) : M unit :=
  match ops with
  | [] => ret tt
  | op :: ops' => step op ;; run ops'
  end.

(** The session together with everything done to the outside so far. *)
Definition World : Type := WebSocket * list Effect.

Definition interleave (ops : list Op) (w : World) : World :=
  let '(_, ws', tr') := run ops (fst w) in (ws', snd w ++ tr').

Definition pausing (e : Effect) (w : World) : World := (fst w, snd w ++ [e]).

(** The turn the other threads take at a point where the thread under
    study can be overtaken without waiting; none once the environment is
    used up. *)
Definition next_turn (env : list (list Op)) : list Op * list (list Op) :=
  match env with
  | [] => ([], [])
  | turn :: env' => (turn, env')
  end.

(** [WebSocket::~WebSocket], from the return of [pthread_join]. *)
Definition WebSocket_destructor_release : M unit :=
  emit pthread_join ;;
  assign F_incoming_message_handler (with_incoming_message_handler None) ;;
  assign F_handle (with_handle nullptr) ;;
  assign F_context (with_context nullptr) ;;
  emit pthread_mutex_destroy ;;
  emit delete_queue.

(** [WebSocket::~WebSocket].  [enqueued_messages_.clear()] is done without
    the mutex, and the other threads may run before
    [StopWatchDogThread()] takes it.  When the flag is cleared the
    watchdog is somewhere in a turn of its loop: it finishes that turn
    (a turn of the environment, in which the other threads run too), and
    goes on turn after turn for as long as it reads the flag set.  When it
    reads it clear it runs [RunWatchdog_exit], and [pthread_join]
    returns. *)
Definition WebSocket_destructor (env : list (list Op)) (ws : WebSocket)
  : Outcome (W:=World) (T:=list Op) unit :=
  let '(_, ws1, tr1) :=
    assign F_enqueued_messages (with_enqueued_messages []) ws in
  let '(turn1, env1) := next_turn env in
  let w1 := interleave turn1 (ws1, tr1) in
  let '(_, ws2, tr2) := StopWatchDogThread (fst w1) in
  let '(turn2, env2) := next_turn env1 in
  match await interleave
              (fun w => negb (value_of (IsWatchDogThreadRunning (fst w))))
              (fun w => w) env2 (interleave turn2 (ws2, snd w1 ++ tr2)) with
  | Blocked w => Blocked w
  | Returned _ w rest =>
      let '(_, ws3, tr3) :=
        (RunWatchdog_exit ;; WebSocket_destructor_release) (fst w) in
      Returned tt (ws3, snd w ++ tr3) rest
  end.

(** The payloads handed to [lws_write], in order. *)
Fixpoint written (tr : list Effect) : list string :=
  match tr with
  | [] => []
  | lws_write _ buf _ _ :: tr' => buf :: written tr'
  | _ :: tr' => written tr'
  end.

(** The messages other callers pass to [SendAsync]. *)
Fixpoint sent (ops : list Op) : list string :=
  match ops with
  | [] => []
  | CallSendAsync message :: ops' => message :: sent ops'
  | _ :: ops' => sent ops'
  end.

(** ** WebSocketClient.cpp *)

(** [web_socket_] points to the session from the constructor to the
    destructor of the client; the methods below run on that session. *)

Definition GetQueue_Take (env : list (list Op)) (w : World)
  : Outcome (W:=World) (T:=list Op) string :=
  SynchronousBlockingQueue.Take interleave
    (fun w' => queue_ (fst w'))
    (fun q w' => (with_queue q (fst w'), snd w')) env w.

Definition SendSynchronousRequest (request : string) (env : list (list Op))
  (ws : WebSocket) : Outcome (W:=World) (T:=list Op) string :=
  let response_message := EmptyString in
  if negb (WebSocketConnectState_eqb (connection_state_ ws) CONNECTED)
  then Returned response_message (ws, []) env
  else
    let '(_, ws1, tr1) := SendAsync request ws in
    GetQueue_Take env (ws1, tr1).

(** [new WebSocket(...)], [SetIncomingMessageHandler], then
    [while (GetConnectState() != CONNECTED) usleep(100*1000);]. *)
Definition OpenWebSocket (host : string) (port : Z) (protocol path : string)
  (message_handler : WebSocketMessageHandler) (env : list (list Op))
  : Outcome (W:=World) (T:=list Op) unit :=
  let '(ws0, tr0) := WebSocket_new host port protocol path in
  let '(_, ws1, tr1) := SetIncomingMessageHandler message_handler ws0 in
  await interleave
        (fun w => WebSocketConnectState_eqb (connection_state_ (fst w)) CONNECTED)
        (pausing (usleep (100 * 1000))) env (ws1, tr0 ++ tr1).

(** [while (web_socket_->HasEnqueuedMessages()) sleep(1);] *)
Definition CloseWebSocket_drain (env : list (list Op)) (w : World)
  : Outcome (W:=World) (T:=list Op) unit :=
  await interleave
        (fun w' => negb (value_of (HasEnqueuedMessages (fst w'))))
        (pausing (sleep 1)) env w.

(** The client's [web_socket_] is [None] for [nullptr].  After the
    [delete] the session is gone and the pointer is reset.  Nothing is
    held between the last [HasEnqueuedMessages()] and the [delete]: the
    other threads take a turn there. *)
Definition CloseWebSocket (env : list (list Op)) (web_socket_ : option WebSocket)
  : Outcome (W:=option WebSocket * list Effect) (T:=list Op) unit :=
  match web_socket_ with
  | None => Returned tt (None, []) env
  | Some ws =>
      match CloseWebSocket_drain env (ws, []) with
      | Blocked w => Blocked (Some (fst w), snd w)
      | Returned _ w rest =>
          let '(turn, rest1) := next_turn rest in
          let w1 := interleave turn w in
          match WebSocket_destructor rest1 (fst w1) with
          | Blocked w2 => Blocked (Some (fst w2), snd w1 ++ snd w2)
          | Returned _ w2 rest2 => Returned tt (None, snd w1 ++ snd w2) rest2
          end
      end
  end.

(** ** Reading traces and schedules *)

(** The effects of a trace performed while the session mutex is held
    ([held] says whether it is held when the trace starts), and those
    performed while it is not. *)
Fixpoint critical (held : bool) (tr : list Effect) : list Effect :=
  match tr with
  | [] => []
  | pthread_mutex_lock :: tr' => critical true tr'
  | pthread_mutex_unlock :: tr' => critical false tr'
  | e :: tr' => if held then e :: critical held tr' else critical held tr'
  end.

Fixpoint outside (held : bool) (tr : list Effect) : list Effect :=
  match tr with
  | [] => []
  | pthread_mutex_lock :: tr' => outside true tr'
  | pthread_mutex_unlock :: tr' => outside false tr'
  | e :: tr' => if held then outside held tr' else e :: outside held tr'
  end.






(** The [wsi] of the latest Established callback the dispatcher acted on,
    [nullptr] when there was none. *)
Fixpoint last_established (ops : list Op) (sofar : ptr) : ptr :=
  match ops with
  | [] => sofar
  | Callback wsi LWS_CALLBACK_CLIENT_ESTABLISHED _ :: ops' =>
      last_established ops' (if N.eqb wsi nullptr then sofar else wsi)
  | _ :: ops' => last_established ops' sofar
  end.

(** A ConnectionError or Closed callback the dispatcher acts on. *)
Definition is_disconnect (op : Op) : bool :=
  match op with
  | Callback wsi LWS_CALLBACK_CLIENT_CONNECTION_ERROR _
  | Callback wsi LWS_CALLBACK_CLOSED _ => negb (N.eqb wsi nullptr)
  | _ => false
  end.

(** A handler that offers every message it is handed. *)
Definition offering_handler : WebSocketMessageHandler :=
  {| Handle := fun message => [message] |}.

(** A session as the client has it after a first connection: the watchdog
    has started, connected through context 1 and the transport has
    reported handle 2 established. *)
Definition connected_session : WebSocket :=
  let '(ws0, _) := WebSocket_new "localhost" 8080%Z "json" "/jsonrpc" in
  state_of
    (run [WatchdogStarted;
          WatchdogIteration 1%N 2%N;
          Callback 2%N LWS_CALLBACK_CLIENT_ESTABLISHED EmptyString]
         (state_of (SetIncomingMessageHandler offering_handler ws0))).

(** The client's session with one request still queued: ["a"] was sent
    before the transport reported the connection writable. *)
Definition queued_session : WebSocket :=
  state_of (SendAsync "a" connected_session).

(** The session of a client whose host name holds a NUL byte:
    [a], NUL, [b]. *)
Definition session_with_NUL_in_host : WebSocket :=
  fst (WebSocket_new (String "a" (String Ascii.zero "b")) 8080%Z
                     "json" "/jsonrpc").

(** The effects of [~WebSocket]: those of [StopWatchDogThread()], and
    those that follow the watchdog's last turn on a session whose context
    is then [context]. *)
Definition teardown_stop : list Effect :=
  [pthread_mutex_lock; store F_watchdog_thread_running; pthread_mutex_unlock].

Definition teardown_tail (context : ptr) : list Effect :=
  [lws_cancel_service context]
  ++ (if N.eqb context nullptr then [] else [lws_context_destroy context])
  ++ [pthread_exit; pthread_join;
      store F_incoming_message_handler; store F_handle; store F_context;
      pthread_mutex_destroy; delete_queue].



(** The outbound discipline: the session is writable only with nothing
    queued. *)
Definition queue_discipline (ws : WebSocket) : Prop :=
  writable_ ws = true -> enqueued_messages_ ws = [].

(** Unfolds the methods down to the state-and-trace triples. *)
Ltac unfold_methods :=
  unfold step, SendAsync, OnWebSocketEvent, RunWatchdog_iteration,
    SetWatchDogThreadStarted, StopWatchDogThread, WriteMessageToWebSocket,
    EnqueueMessage, RemoveOldestEnqueuedMessage, HasEnqueuedMessages,
    call_handler, c_str_of_temporary, SetConnectState, SetHandle, SetWritable,
    SetContext,
    GetContext, GetConnectState, GetHost, GetPort, GetProtocolName,
    GetServerUrlPath, GetHostAddress, GetIncomingMessageHandler,
    bind, read, ret, emit, assign in *.

(** Splits the goal along the branches [step op ws] can take. *)
Ltac step_cases op ws :=
  let Hwsi := fresh "Hwsi" in
  let Hq := fresh "Hq" in
  let Hs := fresh "Hs" in
  let Hw := fresh "Hw" in
  let Hc := fresh "Hc" in
  let message := fresh "message" in
  let wsi := fresh "wsi" in
  let reason := fresh "reason" in
  let in_ := fresh "in_" in
  let created := fresh "created" in
  let connected := fresh "connected" in
  destruct op as [message | wsi reason in_ | | created connected];
  unfold_methods;
  [ destruct (writable_ ws) eqn:Hw
  | destruct (N.eqb wsi nullptr) eqn:Hwsi;
    [ | destruct reason;
        [ | | | destruct (incoming_message_handler_ ws)
          | destruct (enqueued_messages_ ws) eqn:Hq | ] ]
  |
  | destruct (connection_state_ ws) eqn:Hs;
    [ destruct (N.eqb connected nullptr) eqn:Hc | | ] ];
  unfold state_of, trace_of, value_of in *;
  simpl in *;
  rewrite ?Hwsi, ?Hq, ?Hs, ?Hw, ?Hc in *;
  simpl in *.

(** ** More readings of traces and schedules *)

(** Walks a trace with the session mutex free or [held]: [None] when the
    mutex is locked while held or unlocked while free, or when a member of
    the session is stored or a message is written with the mutex free;
    otherwise whether the mutex is held at the end. *)
Fixpoint lock_discipline (held : bool) (tr : list Effect) : option bool :=
  match tr with
  | [] => Some held
  | pthread_mutex_lock :: tr' =>
      if held then None else lock_discipline true tr'
  | pthread_mutex_unlock :: tr' =>
      if held then lock_discipline false tr' else None
  | store _ :: tr' => if held then lock_discipline held tr' else None
  | lws_write _ _ _ _ :: tr' => if held then lock_discipline held tr' else None
  | _ :: tr' => lock_discipline held tr'
  end.

(** The (address, port, path) of the connect attempts of a trace. *)
Fixpoint connects (tr : list Effect) : list (c_str * Z * c_str) :=
  match tr with
  | [] => []
  | lws_client_connect _ address port _ path _ _ _ :: tr' =>
      (address, port, path) :: connects tr'
  | _ :: tr' => connects tr'
  end.

(** The lengths, in microseconds, of the [usleep]s of a trace. *)
Fixpoint sleeps (tr : list Effect) : list Z :=
  match tr with
  | [] => []
  | usleep usec :: tr' => usec :: sleeps tr'
  | _ :: tr' => sleeps tr'
  end.

(** The contexts a trace creates, and those it destroys. *)
Fixpoint created (tr : list Effect) : list ptr :=
  match tr with
  | [] => []
  | lws_create_context _ result :: tr' => result :: created tr'
  | _ :: tr' => created tr'
  end.

Fixpoint destroyed (tr : list Effect) : list ptr :=
  match tr with
  | [] => []
  | lws_context_destroy context :: tr' => context :: destroyed tr'
  | _ :: tr' => destroyed tr'
  end.

(** The handles for which a trace asks a writable notification. *)
Fixpoint notifications (tr : list Effect) : list ptr :=
  match tr with
  | [] => []
  | lws_callback_on_writable wsi :: tr' => wsi :: notifications tr'
  | _ :: tr' => notifications tr'
  end.

(** The callbacks the dispatcher acts on (their [wsi] is not null), by
    reason. *)
Definition is_established (op : Op) : bool :=
  match op with
  | Callback wsi LWS_CALLBACK_CLIENT_ESTABLISHED _ => negb (N.eqb wsi nullptr)
  | _ => false
  end.

Definition is_writable_callback (op : Op) : bool :=
  match op with
  | Callback wsi LWS_CALLBACK_CLIENT_WRITEABLE _ => negb (N.eqb wsi nullptr)
  | _ => false
  end.

(** What the session's handler offers to the hand-off in the course of
    [ops]: the offers it makes for each message the Receive branch hands
    it. *)
Definition offered (handler : option WebSocketMessageHandler) (ops : list Op)
  : list string :=
  flat_map
    (fun op =>
       match op with
       | Callback wsi LWS_CALLBACK_CLIENT_RECEIVE in_ =>
           if N.eqb wsi nullptr then []
           else match handler with
                | Some h => Handle h (c_string in_)
                | None => []
                end
       | _ => []
       end) ops.

(** The last value of the first turn in which anything is offered. *)
Fixpoint first_offer {E : Type} (env : list (list E)) : option E :=
  match env with
  | [] => None
  | [] :: env' => first_offer env'
  | (e :: es) :: _ => Some (last es e)
  end.

(** What a call gave back, when it came back. *)
Definition response_of {W T A : Type} (o : Outcome (W:=W) (T:=T) A)
  : option A :=
  match o with
  | Returned response _ _ => Some response
  | Blocked _ => None
  end.

Definition world_of {W T A : Type} (o : Outcome (W:=W) (T:=T) A) : W :=
  match o with
  | Returned _ w _ => w
  | Blocked w => w
  end.

(** [SendSynchronousRequest] with the scheduler at its least kind: the
    other threads also run ([between]) after [SendAsync] has returned and
    before [Take] executes its first statement. *)
Definition SendSynchronousRequest_preempted (request : string)
  (between : list Op) (env : list (list Op)) (ws : WebSocket)
  : Outcome (W:=World) (T:=list Op) string :=
  let response_message := EmptyString in
  if negb (WebSocketConnectState_eqb (connection_state_ ws) CONNECTED)
  then Returned response_message (ws, []) env
  else
    let '(_, ws1, tr1) := SendAsync request ws in
    GetQueue_Take env (interleave between (ws1, tr1)).

(** ** JsonRpcClient.cpp *)

Definition INT_MAX : Z := 2147483647.

Inductive printf_arg : Type :=
| arg_int (n : Z)
| arg_str (s : string).

(** [snprintf] for the directives the request templates use: [%d] prints
    an [int] in decimal and [%s] a C string (the bytes up to the first
    NUL).  A directive with no argument of its type is undefined, and so
    is, here, a directive other than these two ([None]). *)
Fixpoint printf (format : string) (args : list printf_arg) : option string :=
  match format with
  | EmptyString => Some EmptyString
  | String c rest =>
      if Ascii.eqb c "%" then
        match rest with
        | EmptyString => None
        | String d rest' =>
            if Ascii.eqb d "d" then
              match args with
              | arg_int n :: args' =>
                  option_map (String.append (to_string n)) (printf rest' args')
              | _ => None
              end
            else if Ascii.eqb d "s" then
              match args with
              | arg_str s :: args' =>
                  option_map (String.append (c_string s)) (printf rest' args')
              | _ => None
              end
            else None
        end
      else option_map (String c) (printf rest args)
  end.

(** [string_format]: [snprintf(nullptr, 0, ...)] gives the length, or a
    negative number when the length does not fit an [int]; [size_s] is one
    more, and the function throws when [size_s <= 0]. *)
Definition string_format (format : string) (args : list printf_arg)
  : Completion string :=
  match printf format args with
  | None => Undefined
  | Some text =>
      let n := Z.of_nat (String.length text) in
      if Z.ltb INT_MAX n then Throws "Error during formatting."
      else if Z.eqb n INT_MAX then Undefined
      else Normal text
  end.

Definition dq : ascii := Ascii.ascii_of_nat 34.

(** [s] between double quotes. *)
Definition quoted (s : string) : string :=
  String dq (String.append s (String dq EmptyString)).

Definition TEMPLATE_REQUEST_WITH_PARAMS : string :=
  String.concat EmptyString
    ["{"; quoted "jsonrpc"; ":"; quoted "2.0"; ", ";
     quoted "id"; ":"; quoted "%d"; ", ";
     quoted "method"; ":"; quoted "%s"; ", ";
     quoted "params"; ":%s}"].

Definition TEMPLATE_REQUEST_WITHOUT_PARAMS : string :=
  String.concat EmptyString
    ["{"; quoted "jsonrpc"; ":"; quoted "2.0"; ", ";
     quoted "id"; ":"; quoted "%d"; ", ";
     quoted "method"; ":"; quoted "%s"; "}"].

(** The text of a request, as the templates lay it out. *)
Definition request_text (id : Z) (method : string) (params : option string)
  : string :=
  String.concat EmptyString
    (["{"; quoted "jsonrpc"; ":"; quoted "2.0"; ", ";
      quoted "id"; ":"; quoted (to_string id); ", ";
      quoted "method"; ":"; quoted (c_string method)]
     ++ match params with
        | Some p => [", "; quoted "params"; ":"; c_string p; "}"]
        | None => ["}"]
        end).

Definition with_client {A : Type} (o : Outcome (W:=World) (T:=list Op) A)
  : Outcome (W:=option WebSocket * list Effect) (T:=list Op) A :=
  match o with
  | Returned a w rest => Returned a (Some (fst w), snd w) rest
  | Blocked w => Blocked (Some (fst w), snd w)
  end.

(** [JsonRpcClient::Call].  [id] is the function's static counter, 0 before
    the first call; [web_socket_client_] is the session of the client it
    points to, [None] for [nullptr].  The result is the counter after the
    call and how the call ended. *)
Definition Call (method params : string) (env : list (list Op))
  (web_socket_client_ : option WebSocket) (id : Z)
  : Z * Completion (Outcome (W:=option WebSocket * list Effect)
                            (T:=list Op) string) :=
  let response := EmptyString in
  match web_socket_client_ with
  | None => (id, Normal (Returned response (None, []) env))
  | Some ws =>
      if Z.leb INT_MAX id then (id, Undefined)
      else
        let id' := (id + 1)%Z in
        let request :=
          match params with
          | EmptyString =>
              string_format TEMPLATE_REQUEST_WITHOUT_PARAMS
                            [arg_int id'; arg_str method]
          | String _ _ =>
              string_format TEMPLATE_REQUEST_WITH_PARAMS
                            [arg_int id'; arg_str method; arg_str params]
          end in
        match request with
        | Normal request =>
            (id', Normal (with_client (SendSynchronousRequest request env ws)))
        | Throws what => (id', Throws what)
        | Undefined => (id', Undefined)
        end
  end.

(** * Properties *)

(** ** The hand-off *)

Module SBQ := SynchronousBlockingQueue.

Section HandOff.
Context {E : Type}.

Lemma offers_app (es1 es2 : list E) (q : SBQ.t E) :
  SBQ.offers (es1 ++ es2) q = SBQ.offers es2 (SBQ.offers es1 q).
Proof. unfold SBQ.offers. apply fold_left_app. Qed.

(** Whatever is offered in a row, the slot holds the last value only. *)
Lemma offers_last (es : list E) (y : E) (q : SBQ.t E) :
  SBQ.offers (es ++ [y]) q = SBQ.Offer y q.
Proof. rewrite offers_app. reflexivity. Qed.

Lemma await_idle (n : nat) (q : SBQ.t E) :
  SBQ.ready_to_unlock_ q = false ->
  await SBQ.offers SBQ.ready_to_unlock_ (fun q' => q') (repeat [] n) q
  = Blocked q.
Proof.
  intros Hq. induction n as [|n IH]; simpl; rewrite Hq.
  - reflexivity.
  - exact IH.
Qed.

Lemma await_wakes (n : nat) (es : list E) (y : E) (env : list (list E))
  (q : SBQ.t E) :
  SBQ.ready_to_unlock_ q = false ->
  await SBQ.offers SBQ.ready_to_unlock_ (fun q' => q')
        (repeat [] n ++ (es ++ [y]) :: env) q
  = Returned tt (SBQ.Offer y q) env.
Proof.
  intros Hq. induction n as [|n IH]; simpl; rewrite Hq.
  - rewrite offers_last. destruct env; reflexivity.
  - exact IH.
Qed.

(** A consumer that is only ever woken spuriously stays blocked, with the
    flag it cleared on entry. *)
Lemma Take_alone_idle (n : nat) (q : SBQ.t E) :
  SBQ.Take_alone (repeat [] n) q = Blocked (SBQ.Take_reset q).
Proof.
  unfold SBQ.Take_alone, SBQ.Take.
  change (fun w' : SBQ.t E => SBQ.ready_to_unlock_ w')
    with (@SBQ.ready_to_unlock_ E).
  rewrite await_idle by reflexivity. reflexivity.
Qed.

(** After [n] spurious wake-ups, the first turn in which something is
    offered ends the wait, and the value returned is the last one offered
    in that turn. *)
Lemma Take_alone_wakes (n : nat) (es : list E) (y : E)
  (env : list (list E)) (q : SBQ.t E) :
  SBQ.Take_alone (repeat [] n ++ (es ++ [y]) :: env) q
  = Returned y (SBQ.Offer y q) env.
Proof.
  unfold SBQ.Take_alone, SBQ.Take.
  change (fun w' : SBQ.t E => SBQ.ready_to_unlock_ w')
    with (@SBQ.ready_to_unlock_ E).
  rewrite await_wakes by reflexivity. reflexivity.
Qed.

Lemma offers_nil_or_last (es : list E) (q : SBQ.t E) :
  (es = [] /\ SBQ.offers es q = q)
  \/ (SBQ.ready_to_unlock_ (SBQ.offers es q) = true
      /\ In (SBQ.element_ (SBQ.offers es q)) es).
Proof.
  destruct es as [|e es]; [left; split; reflexivity | right].
  assert (Hne : e :: es <> []) by discriminate.
  destruct (exists_last Hne) as [es' [y Hy]]. rewrite Hy, offers_last.
  split; [reflexivity|]. apply in_or_app. right. left. reflexivity.
Qed.

Lemma await_returns_an_offer (env : list (list E)) (q : SBQ.t E) :
  SBQ.ready_to_unlock_ q = false ->
  forall (w : SBQ.t E) (rest : list (list E)),
  await SBQ.offers SBQ.ready_to_unlock_ (fun q' => q') env q
  = Returned tt w rest ->
  In (SBQ.element_ w) (List.concat env).
Proof.
  revert q. induction env as [|turn env IH]; intros q Hq w rest; simpl;
    rewrite Hq; [discriminate|].
  intros Hret. apply in_or_app.
  destruct (offers_nil_or_last turn q) as [[Hnil Hsame] | [Hready Hin]].
  - right. rewrite Hsame in Hret. exact (IH q Hq w rest Hret).
  - left. destruct env; simpl in Hret; rewrite Hready in Hret;
      injection Hret as <- _; exact Hin.
Qed.

(** What [Take] returns was offered during its wait. *)
Lemma Take_alone_returns_an_offer (env : list (list E)) (q : SBQ.t E)
  (v : E) (w : SBQ.t E) (rest : list (list E)) :
  SBQ.Take_alone env q = Returned v w rest -> In v (List.concat env).
Proof.
  unfold SBQ.Take_alone, SBQ.Take.
  change (fun w' : SBQ.t E => SBQ.ready_to_unlock_ w')
    with (@SBQ.ready_to_unlock_ E).
  destruct (await SBQ.offers SBQ.ready_to_unlock_ (fun q' => q') env
                  (SBQ.Take_reset q)) as [[] w' rest' | w'] eqn:Hawait;
    [|discriminate].
  intros Hret. injection Hret as <- <- <-.
  exact (await_returns_an_offer env (SBQ.Take_reset q) eq_refl w' rest' Hawait).
Qed.

End HandOff.

(** C2, counterexample.  [Offer("x")] completes and only then is [Take()]
    called: [Take] clears the flag the offer had set and waits.  With no
    further offer it stays blocked, however often it is woken; with a later
    [Offer("y")] it returns ["y"], not ["x"]. *)
Lemma Offer_then_Take_does_not_return_the_offer :
  SBQ.Take_alone [] (SBQ.Offer "x" (SBQ.new EmptyString))
  = Blocked (SBQ.mk false "x")
  /\ SBQ.Take_alone [[]; []; []] (SBQ.Offer "x" (SBQ.new EmptyString))
     = Blocked (SBQ.mk false "x")
  /\ SBQ.Take_alone [["y"]] (SBQ.Offer "x" (SBQ.new EmptyString))
     = Returned "y" (SBQ.mk true "y") [].
Proof. repeat split. Qed.

(** C2, amended.  For every value [x]: when [Offer(x)] is the one offer
    made while a [Take()] waits (after [Take] has cleared the flag, and
    after any number of spurious wake-ups), that [Take()] returns [x]; an
    [Offer(x)] that completed before [Take()] was called is dropped by the
    reset, and [Take()] stays blocked as long as nothing else is offered;
    and whatever a [Take()] returns was offered during its wait. *)
Theorem Take_returns_the_offer_made_while_it_waits
  (E : Type) (x : E) (q : SBQ.t E) (n : nat) (env : list (list E)) :
  SBQ.Take_alone (repeat [] n ++ [x] :: env) q
  = Returned x (SBQ.Offer x q) env
  /\ SBQ.Take_alone (repeat [] n) (SBQ.Offer x q)
     = Blocked (SBQ.Take_reset (SBQ.Offer x q))
  /\ (forall v w rest,
        SBQ.Take_alone env (SBQ.Offer x q) = Returned v w rest ->
        In v (List.concat env)).
Proof.
  split; [|split].
  - exact (Take_alone_wakes n [] x env q).
  - apply Take_alone_idle.
  - intros v w rest. apply Take_alone_returns_an_offer.
Qed.

Lemma Take_returns_the_offer_made_while_it_waits_witness :
  SBQ.Take_alone [[]; ["x"]; ["z"]] (SBQ.Offer "w" (SBQ.new EmptyString))
  = Returned "x" (SBQ.mk true "x") [["z"]]
  /\ In "x" (List.concat [[]; ["x"]; ["z"]]).
Proof.
  destruct (Take_returns_the_offer_made_while_it_waits
              string "w" (SBQ.new EmptyString) 0 [[]; ["x"]; ["z"]])
    as (_ & _ & Hin).
  assert (Hrun :
    SBQ.Take_alone [[]; ["x"]; ["z"]] (SBQ.Offer "w" (SBQ.new EmptyString))
    = Returned "x" (SBQ.mk true "x") [["z"]]) by reflexivity.
  split; [exact Hrun | exact (Hin _ _ _ Hrun)].
Defined.

(** C8.  Two offers with no [Take] returning in between: the slot is as if
    the first had never been made, its element is the second value, and a
    consumer that was waiting when both landed returns the second value. *)
Theorem second_Offer_overwrites_the_first
  (E : Type) (x y : E) (q : SBQ.t E) (n : nat) (env : list (list E)) :
  SBQ.Offer y (SBQ.Offer x q) = SBQ.Offer y q
  /\ SBQ.element_ (SBQ.Offer y (SBQ.Offer x q)) = y
  /\ SBQ.Take_alone (repeat [] n ++ [x; y] :: env) q
     = Returned y (SBQ.Offer y q) env.
Proof.
  split; [reflexivity | split; [reflexivity |]].
  exact (Take_alone_wakes n [x] y env q).
Qed.

(** ** The outbound queue and [SendAsync] *)

(** C10.  On a session whose outbound queue is empty,
    [RemoveOldestEnqueuedMessage] returns the empty string, performs no
    store and leaves the session as it found it; [HasEnqueuedMessages]
    answers false there. *)
Theorem RemoveOldestEnqueuedMessage_on_empty_queue (ws : WebSocket) :
  enqueued_messages_ ws = [] ->
  RemoveOldestEnqueuedMessage ws = (EmptyString, ws, [])
  /\ HasEnqueuedMessages ws = (false, ws, []).
Proof.
  intros Hempty.
  unfold RemoveOldestEnqueuedMessage, HasEnqueuedMessages, bind, read, ret.
  rewrite Hempty. split; reflexivity.
Qed.

Lemma RemoveOldestEnqueuedMessage_on_empty_queue_witness :
  enqueued_messages_ connected_session = []
  /\ RemoveOldestEnqueuedMessage connected_session
     = (EmptyString, connected_session, []).
Proof.
  split.
  - reflexivity.
  - apply (RemoveOldestEnqueuedMessage_on_empty_queue connected_session).
    reflexivity.
Defined.

Lemma RemoveOldestEnqueuedMessage_takes_head
  (message : string) (q : list string) (ws : WebSocket) :
  enqueued_messages_ ws = message :: q ->
  RemoveOldestEnqueuedMessage ws
  = (message, with_enqueued_messages q ws, [store F_enqueued_messages]).
Proof.
  intros Hq.
  unfold RemoveOldestEnqueuedMessage, HasEnqueuedMessages, bind, read, ret,
    assign.
  rewrite Hq. simpl. rewrite Hq. reflexivity.
Qed.

(** The two branches of [SendAsync]. *)
Lemma SendAsync_cases (message : string) (ws : WebSocket) :
  SendAsync message ws =
  if writable_ ws then
    (tt, with_writable false ws,
     [pthread_mutex_lock;
      lws_write (handle_ ws) message (String.length message) LWS_WRITE_TEXT;
      store F_writable;
      lws_callback_on_writable (handle_ ws);
      pthread_mutex_unlock])
  else
    (tt, with_enqueued_messages (enqueued_messages_ ws ++ [message]) ws,
     [pthread_mutex_lock; store F_enqueued_messages; pthread_mutex_unlock]).
Proof.
  unfold SendAsync, WriteMessageToWebSocket, EnqueueMessage, bind, read, emit,
    assign.
  destruct (writable_ ws); reflexivity.
Qed.

(** C3.  [SendAsync(message)]: with [writable_] set, the message goes to
    [lws_write] on the current handle at once, [writable_] is cleared and
    the queue is left as it was; with [writable_] clear, the message is
    appended at the tail of the queue and nothing is written.  Either way
    the work is done between one lock and one unlock of the session mutex
    and no other member changes. *)
Theorem SendAsync_writes_or_enqueues (message : string) (ws : WebSocket) :
  let r := SendAsync message ws in
  (writable_ ws = true ->
   state_of r = with_writable false ws
   /\ trace_of r
      = [pthread_mutex_lock;
         lws_write (handle_ ws) message (String.length message) LWS_WRITE_TEXT;
         store F_writable;
         lws_callback_on_writable (handle_ ws);
         pthread_mutex_unlock]
   /\ written (trace_of r) = [message]
   /\ writable_ (state_of r) = false
   /\ enqueued_messages_ (state_of r) = enqueued_messages_ ws)
  /\ (writable_ ws = false ->
      state_of r
      = with_enqueued_messages (enqueued_messages_ ws ++ [message]) ws
      /\ trace_of r
         = [pthread_mutex_lock; store F_enqueued_messages; pthread_mutex_unlock]
      /\ written (trace_of r) = []
      /\ writable_ (state_of r) = false
      /\ enqueued_messages_ (state_of r) = enqueued_messages_ ws ++ [message]).
Proof.
  cbv zeta. rewrite SendAsync_cases.
  split; intros Hw; rewrite Hw; unfold state_of, trace_of; simpl;
    repeat split; auto.
Qed.

Lemma SendAsync_writes_or_enqueues_witness :
  let writable := Callback 2%N LWS_CALLBACK_CLIENT_WRITEABLE EmptyString in
  let ready_session := state_of (step writable connected_session) in
  (writable_ ready_session = true
   /\ written (trace_of (SendAsync "ping" ready_session)) = ["ping"]
   /\ enqueued_messages_ (state_of (SendAsync "ping" ready_session)) = [])
  /\ (writable_ connected_session = false
      /\ written (trace_of (SendAsync "ping" connected_session)) = []
      /\ enqueued_messages_ (state_of (SendAsync "ping" connected_session))
         = ["ping"]).
Proof.
  cbv zeta. split.
  - split; [reflexivity|].
    destruct (proj1 (SendAsync_writes_or_enqueues "ping"
                       (state_of (step (Callback 2%N
                          LWS_CALLBACK_CLIENT_WRITEABLE EmptyString)
                          connected_session))) eq_refl)
      as (_ & _ & Hwritten & _ & Hqueue).
    split; [exact Hwritten | exact Hqueue].
  - split; [reflexivity|].
    destruct (proj2 (SendAsync_writes_or_enqueues "ping" connected_session)
                eq_refl)
      as (_ & _ & Hwritten & _ & Hqueue).
    split; [exact Hwritten | exact Hqueue].
Defined.

(** ** Runs of the other threads *)

Lemma run_cons (op : Op) (ops : list Op) (ws : WebSocket) :
  run (op :: ops) ws
  = (tt, state_of (run ops (state_of (step op ws))),
     trace_of (step op ws) ++ trace_of (run ops (state_of (step op ws)))).
Proof.
  simpl. unfold bind, state_of, trace_of.
  destruct (step op ws) as [[[] ws1] tr1]. simpl.
  destruct (run ops ws1) as [[[] ws2] tr2]. reflexivity.
Qed.

Lemma state_of_run_cons (op : Op) (ops : list Op) (ws : WebSocket) :
  state_of (run (op :: ops) ws) = state_of (run ops (state_of (step op ws))).
Proof. rewrite run_cons. reflexivity. Qed.

Lemma trace_of_run_cons (op : Op) (ops : list Op) (ws : WebSocket) :
  trace_of (run (op :: ops) ws)
  = trace_of (step op ws) ++ trace_of (run ops (state_of (step op ws))).
Proof. rewrite run_cons. reflexivity. Qed.

Lemma written_app (tr1 tr2 : list Effect) :
  written (tr1 ++ tr2) = written tr1 ++ written tr2.
Proof.
  induction tr1 as [|e tr1 IH]; [reflexivity|].
  destruct e; simpl; rewrite IH; reflexivity.
Qed.

Lemma sent_app (ops1 ops2 : list Op) :
  sent (ops1 ++ ops2) = sent ops1 ++ sent ops2.
Proof.
  induction ops1 as [|op ops1 IH]; [reflexivity|].
  destruct op; simpl; rewrite IH; reflexivity.
Qed.

(** One action of another thread keeps the outbound discipline, and hands
    to the transport exactly what leaves the head of the queue. *)
Lemma step_conserves (op : Op) (ws : WebSocket) :
  queue_discipline ws ->
  queue_discipline (state_of (step op ws))
  /\ written (trace_of (step op ws)) ++ enqueued_messages_ (state_of (step op ws))
     = enqueued_messages_ ws ++ sent [op].
Proof.
  unfold queue_discipline. intros Hd.
  destruct op as [message | wsi reason in_ | | created connected].
  - unfold_methods. destruct (writable_ ws) eqn:Hw; simpl.
    + rewrite (Hd eq_refl). split; [discriminate | reflexivity].
    + rewrite Hw. split; [discriminate | reflexivity].
  - unfold_methods. destruct (N.eqb wsi nullptr); simpl.
    { split; [exact Hd | now rewrite app_nil_r]. }
    destruct reason; simpl; try (split; [exact Hd | now rewrite app_nil_r]).
    + destruct (incoming_message_handler_ ws); simpl;
        (split; [exact Hd | now rewrite app_nil_r]).
    + destruct (enqueued_messages_ ws) as [|m q] eqn:Hq; simpl.
      * rewrite Hq. split; reflexivity.
      * rewrite !Hq. simpl. split; [discriminate | now rewrite app_nil_r].
  - unfold_methods. simpl. split; [exact Hd | now rewrite app_nil_r].
  - unfold_methods. simpl.
    destruct (connection_state_ ws); simpl;
      try (split; [exact Hd | now rewrite app_nil_r]).
    destruct (N.eqb connected nullptr); simpl;
      (split; [exact Hd | now rewrite app_nil_r]).
Qed.

Lemma run_conserves (ops : list Op) (ws : WebSocket) :
  queue_discipline ws ->
  queue_discipline (state_of (run ops ws))
  /\ written (trace_of (run ops ws)) ++ enqueued_messages_ (state_of (run ops ws))
     = enqueued_messages_ ws ++ sent ops.
Proof.
  revert ws. induction ops as [|op ops IH]; intros ws Hd.
  - simpl. split; [exact Hd | now rewrite app_nil_r].
  - rewrite state_of_run_cons, trace_of_run_cons.
    destruct (step_conserves op ws Hd) as [Hd1 Hc1].
    destruct (IH _ Hd1) as [Hd2 Hc2].
    split; [exact Hd2|].
    rewrite written_app, <- app_assoc, Hc2, app_assoc, Hc1, <- app_assoc.
    change (op :: ops) with ([op] ++ ops). now rewrite sent_app.
Qed.

(** The Writable branch of the dispatcher. *)
Lemma writable_event (wsi : ptr) (in_ : string) (ws : WebSocket) :
  wsi <> nullptr ->
  step (Callback wsi LWS_CALLBACK_CLIENT_WRITEABLE in_) ws =
  match enqueued_messages_ ws with
  | [] =>
      (tt, with_writable true ws,
       [pthread_mutex_lock; store F_writable; pthread_mutex_unlock])
  | message :: q =>
      (tt, with_writable false (with_enqueued_messages q ws),
       [pthread_mutex_lock; store F_enqueued_messages;
        lws_write (handle_ ws) message (String.length message) LWS_WRITE_TEXT;
        store F_writable; lws_callback_on_writable (handle_ ws);
        pthread_mutex_unlock])
  end.
Proof.
  intros Hwsi. apply N.eqb_neq in Hwsi.
  unfold_methods. rewrite Hwsi.
  destruct (enqueued_messages_ ws) as [|m q] eqn:Hq; simpl.
  - reflexivity.
  - rewrite !Hq. reflexivity.
Qed.

(** [k] Writable events write the first [k] queued messages, oldest
    first, and leave the others queued. *)
Lemma run_writable_events (wsi : ptr) (in_ : string) (k : nat) (ws : WebSocket) :
  wsi <> nullptr ->
  let r := run (repeat (Callback wsi LWS_CALLBACK_CLIENT_WRITEABLE in_) k) ws in
  written (trace_of r) = firstn k (enqueued_messages_ ws)
  /\ enqueued_messages_ (state_of r) = skipn k (enqueued_messages_ ws).
Proof.
  intros Hwsi. revert ws. induction k as [|k IH]; intros ws; simpl repeat.
  - split; reflexivity.
  - cbv zeta. rewrite state_of_run_cons, trace_of_run_cons, written_app.
    rewrite (writable_event wsi in_ ws Hwsi).
    destruct (enqueued_messages_ ws) as [|m q] eqn:Hq.
    + destruct (IH (with_writable true ws)) as [IHw IHq].
      unfold state_of, trace_of in *. simpl fst. simpl snd.
      simpl enqueued_messages_ in *. rewrite Hq in *.
      rewrite IHw, IHq. rewrite firstn_nil, skipn_nil. split; reflexivity.
    + destruct (IH (with_writable false (with_enqueued_messages q ws)))
        as [IHw IHq].
      unfold state_of, trace_of in *. simpl fst. simpl snd.
      simpl enqueued_messages_ in *. rewrite IHw, IHq. split; reflexivity.
Qed.

(** Messages sent while the session is not writable all join the queue, in
    the order of the calls, and none is written. *)
Lemma run_sends_while_not_writable (msgs : list string) (ws : WebSocket) :
  writable_ ws = false ->
  let r := run (map CallSendAsync msgs) ws in
  enqueued_messages_ (state_of r) = enqueued_messages_ ws ++ msgs
  /\ written (trace_of r) = []
  /\ writable_ (state_of r) = false.
Proof.
  revert ws. induction msgs as [|m msgs IH]; intros ws Hw; cbv zeta.
  - simpl. rewrite app_nil_r. auto.
  - simpl map. rewrite state_of_run_cons, trace_of_run_cons, written_app.
    simpl step. rewrite SendAsync_cases, Hw.
    destruct (IH (with_enqueued_messages (enqueued_messages_ ws ++ [m]) ws) Hw)
      as [IHq [IHw IHf]].
    unfold state_of, trace_of in *. simpl fst. simpl snd.
    rewrite IHq, IHw, IHf. simpl. rewrite <- app_assoc. auto.
Qed.

(** C4.  [EnqueueMessage] appends at the tail; [RemoveOldestEnqueuedMessage]
    returns and removes the head; and messages sent while the session is
    not writable are written, one per Writable event, in the order they
    were sent, behind whatever was queued before them. *)
Theorem outbound_queue_is_FIFO
  (wsi : ptr) (in_ : string) (msgs : list string) (ws : WebSocket) :
  wsi <> nullptr ->
  writable_ ws = false ->
  let queued := run (map CallSendAsync msgs) ws in
  let writable_event := Callback wsi LWS_CALLBACK_CLIENT_WRITEABLE in_ in
  let all := enqueued_messages_ ws ++ msgs in
  let drained := run (repeat writable_event (List.length all)) (state_of queued) in
  (forall m, enqueued_messages_ (state_of (EnqueueMessage m ws))
             = enqueued_messages_ ws ++ [m])
  /\ (forall m q, enqueued_messages_ ws = m :: q ->
        value_of (RemoveOldestEnqueuedMessage ws) = m
        /\ enqueued_messages_ (state_of (RemoveOldestEnqueuedMessage ws)) = q)
  /\ enqueued_messages_ (state_of queued) = all
  /\ written (trace_of queued) = []
  /\ (forall k, written (trace_of (run (repeat writable_event k) (state_of queued)))
                = firstn k all)
  /\ written (trace_of drained) = all
  /\ enqueued_messages_ (state_of drained) = [].
Proof.
  intros Hwsi Hw queued writable_ev all drained.
  destruct (run_sends_while_not_writable msgs ws Hw) as [Hq [Hnone _]].
  fold queued in Hq, Hnone. fold all in Hq.
  split; [reflexivity|].
  split.
  { intros m q Hmq.
    rewrite (RemoveOldestEnqueuedMessage_takes_head m q ws Hmq).
    split; reflexivity. }
  split; [exact Hq|]. split; [exact Hnone|].
  split.
  { intros k.
    destruct (run_writable_events wsi in_ k (state_of queued) Hwsi) as [Hk _].
    rewrite Hq in Hk. exact Hk. }
  destruct (run_writable_events wsi in_ (List.length all) (state_of queued) Hwsi)
    as [Hall Hrest].
  fold writable_ev in Hall, Hrest. fold drained in Hall, Hrest.
  rewrite Hq in Hall, Hrest.
  rewrite firstn_all in Hall. rewrite skipn_all in Hrest. auto.
Qed.

Lemma outbound_queue_is_FIFO_witness :
  2%N <> nullptr
  /\ writable_ connected_session = false
  /\ written
       (trace_of
          (run (repeat (Callback 2%N LWS_CALLBACK_CLIENT_WRITEABLE EmptyString) 3)
               (state_of (run (map CallSendAsync ["a"; "b"; "c"])
                              connected_session))))
     = ["a"; "b"; "c"].
Proof.
  assert (Hwsi : 2%N <> nullptr) by discriminate.
  assert (Hw : writable_ connected_session = false) by reflexivity.
  split; [exact Hwsi | split; [exact Hw|]].
  exact (proj1 (proj2 (proj2 (proj2 (proj2 (proj2
    (outbound_queue_is_FIFO 2%N EmptyString ["a"; "b"; "c"]
       connected_session Hwsi Hw))))))).
Defined.

(** ** Invariants of the session *)

(** C5, counterexample.  The watchdog connects, the transport reports the
    connection established and then writable, and then closed: the Closed
    branch sets the state and nothing else, so the session is Disconnected
    with [writable_] still set. *)
Lemma writable_survives_Closed :
  let ws :=
    state_of
      (run [WatchdogIteration 1%N 2%N;
            Callback 2%N LWS_CALLBACK_CLIENT_ESTABLISHED EmptyString;
            Callback 2%N LWS_CALLBACK_CLIENT_WRITEABLE EmptyString;
            Callback 2%N LWS_CALLBACK_CLOSED EmptyString]
           (fst (WebSocket_new "localhost" 8080%Z "json" "/jsonrpc"))) in
  writable_ ws = true
  /\ connection_state_ ws = DISCONNECTED
  /\ enqueued_messages_ ws = [].
Proof. repeat split. Qed.

(** C5, amended.  In every state reached from the initial one
    (Disconnected, not writable, empty queue) by calls of [SendAsync],
    callbacks of the dispatcher and turns of the watchdog, in any number
    and order, [writable_] is set only when the outbound queue is empty. *)
Theorem writable_only_with_empty_queue (ws0 : WebSocket) (ops : list Op) :
  connection_state_ ws0 = DISCONNECTED ->
  writable_ ws0 = false ->
  enqueued_messages_ ws0 = [] ->
  writable_ (state_of (run ops ws0)) = true ->
  enqueued_messages_ (state_of (run ops ws0)) = [].
Proof.
  intros _ Hw _.
  assert (Hd : queue_discipline ws0).
  { unfold queue_discipline. rewrite Hw. discriminate. }
  exact (proj1 (run_conserves ops ws0 Hd)).
Qed.

Lemma writable_only_with_empty_queue_witness :
  let ws0 := fst (WebSocket_new "localhost" 8080%Z "json" "/jsonrpc") in
  let ops := [WatchdogIteration 1%N 2%N;
              Callback 2%N LWS_CALLBACK_CLIENT_ESTABLISHED EmptyString;
              CallSendAsync "ping";
              Callback 2%N LWS_CALLBACK_CLIENT_WRITEABLE EmptyString;
              Callback 2%N LWS_CALLBACK_CLIENT_WRITEABLE EmptyString] in
  writable_ (state_of (run ops ws0)) = true
  /\ enqueued_messages_ (state_of (run ops ws0)) = [].
Proof.
  cbv zeta. split.
  - reflexivity.
  - apply writable_only_with_empty_queue; reflexivity.
Defined.

(** What one action of another thread does to the handle and to the
    state. *)
Lemma step_handle_state (op : Op) (ws : WebSocket) :
  handle_ (state_of (step op ws)) = last_established [op] (handle_ ws)
  /\ (connection_state_ (state_of (step op ws)) = CONNECTED ->
      connection_state_ ws = CONNECTED
      \/ handle_ (state_of (step op ws)) <> nullptr)
  /\ (is_disconnect op = false ->
      connection_state_ ws = CONNECTED ->
      connection_state_ (state_of (step op ws)) = CONNECTED)
  /\ (handle_ (state_of (step op ws)) <> handle_ ws ->
      connection_state_ (state_of (step op ws)) = CONNECTED)
  /\ (handle_ ws <> nullptr -> handle_ (state_of (step op ws)) <> nullptr).
Proof.
  step_cases op ws;
    repeat split; intros; auto; try congruence;
    try (left; assumption); try (right; apply N.eqb_neq; assumption);
    try (apply N.eqb_neq; assumption);
    try (destruct reason; reflexivity).
Qed.

Lemma last_established_cons (op : Op) (ops : list Op) (sofar : ptr) :
  last_established (op :: ops) sofar
  = last_established ops (last_established [op] sofar).
Proof. destruct op as [| wsi [] in_ | |]; reflexivity. Qed.

(** The handle is the [wsi] of the latest Established callback, or what it
    was before the run when there was none. *)
Lemma run_handle (ops : list Op) (ws : WebSocket) :
  handle_ (state_of (run ops ws)) = last_established ops (handle_ ws).
Proof.
  revert ws. induction ops as [|op ops IH]; intros ws; [reflexivity|].
  rewrite state_of_run_cons, IH, last_established_cons.
  now rewrite (proj1 (step_handle_state op ws)).
Qed.

(** A Connected session has a handle. *)
Lemma run_connected_has_handle (ops : list Op) (ws : WebSocket) :
  (connection_state_ ws = CONNECTED -> handle_ ws <> nullptr) ->
  connection_state_ (state_of (run ops ws)) = CONNECTED ->
  handle_ (state_of (run ops ws)) <> nullptr.
Proof.
  revert ws. induction ops as [|op ops IH]; intros ws Hinv; [exact Hinv|].
  rewrite state_of_run_cons. apply IH.
  destruct (step_handle_state op ws) as (_ & Hconn & _ & _ & Hkeep).
  intros Hs. destruct (Hconn Hs) as [Hbefore | Hnow]; auto.
Qed.

(** As long as no ConnectionError or Closed callback is dispatched, a
    session with a handle is Connected. *)
Lemma run_handle_connected (ops : list Op) (ws : WebSocket) :
  existsb is_disconnect ops = false ->
  (handle_ ws <> nullptr -> connection_state_ ws = CONNECTED) ->
  handle_ (state_of (run ops ws)) <> nullptr ->
  connection_state_ (state_of (run ops ws)) = CONNECTED.
Proof.
  revert ws. induction ops as [|op ops IH]; intros ws Hnone Hinv; [exact Hinv|].
  simpl in Hnone. apply orb_false_elim in Hnone. destruct Hnone as [Hop Hops].
  rewrite state_of_run_cons. apply IH; [exact Hops|].
  destruct (step_handle_state op ws) as (_ & _ & Hstay & Hnew & _).
  intros Hh.
  destruct (N.eq_dec (handle_ (state_of (step op ws))) (handle_ ws)) as [Heq | Hne].
  - apply Hstay; [exact Hop|]. apply Hinv. now rewrite <- Heq.
  - exact (Hnew Hne).
Qed.

(** C6, counterexample.  The watchdog connects, the transport reports the
    connection established on handle 2 and then closed: the Closed branch
    leaves [handle_] as it is, so the session is Disconnected and still
    holds handle 2. *)
Lemma handle_survives_Closed :
  let ws0 := fst (WebSocket_new "localhost" 8080%Z "json" "/jsonrpc") in
  let ws :=
    state_of
      (run [WatchdogIteration 1%N 2%N;
            Callback 2%N LWS_CALLBACK_CLIENT_ESTABLISHED EmptyString;
            Callback 2%N LWS_CALLBACK_CLOSED EmptyString] ws0) in
  handle_ ws0 = nullptr
  /\ connection_state_ ws0 = DISCONNECTED
  /\ handle_ ws = 2%N
  /\ handle_ ws <> nullptr
  /\ connection_state_ ws = DISCONNECTED.
Proof. cbv zeta. repeat split. discriminate. Qed.

(** C6, amended.  In every state reached from the initial one (no handle,
    Disconnected) by calls of [SendAsync], callbacks of the dispatcher and
    turns of the watchdog: the handle is the [wsi] of the latest
    Established callback and null when there was none; a Connected
    session has a handle; and, as long as no ConnectionError or Closed
    callback has been dispatched, a session with a handle is Connected.
    (ConnectionError and Closed set the state and keep the handle.) *)
Theorem handle_is_the_last_established (ws0 : WebSocket) (ops : list Op) :
  handle_ ws0 = nullptr ->
  connection_state_ ws0 = DISCONNECTED ->
  let ws := state_of (run ops ws0) in
  handle_ ws = last_established ops nullptr
  /\ (connection_state_ ws = CONNECTED -> handle_ ws <> nullptr)
  /\ (existsb is_disconnect ops = false ->
      handle_ ws <> nullptr -> connection_state_ ws = CONNECTED).
Proof.
  intros Hh Hs ws. subst ws. split; [|split].
  - rewrite run_handle, Hh. reflexivity.
  - apply run_connected_has_handle. rewrite Hs. discriminate.
  - intros Hnone. apply run_handle_connected; [exact Hnone|].
    rewrite Hh. intros Hne. now elim Hne.
Qed.

Lemma handle_is_the_last_established_witness :
  let ws0 := fst (WebSocket_new "localhost" 8080%Z "json" "/jsonrpc") in
  let ops := [WatchdogIteration 1%N 0%N;
              WatchdogIteration 3%N 4%N;
              Callback 4%N LWS_CALLBACK_CLIENT_ESTABLISHED EmptyString;
              Callback 4%N LWS_CALLBACK_CLIENT_WRITEABLE EmptyString] in
  handle_ (state_of (run ops ws0)) = 4%N
  /\ connection_state_ (state_of (run ops ws0)) = CONNECTED.
Proof.
  cbv zeta.
  pose proof (handle_is_the_last_established
                (fst (WebSocket_new "localhost" 8080%Z "json" "/jsonrpc"))
                [WatchdogIteration 1%N 0%N;
                 WatchdogIteration 3%N 4%N;
                 Callback 4%N LWS_CALLBACK_CLIENT_ESTABLISHED EmptyString;
                 Callback 4%N LWS_CALLBACK_CLIENT_WRITEABLE EmptyString]
                eq_refl eq_refl) as [Hlast [_ Hconn]].
  split.
  - exact Hlast.
  - apply Hconn; [reflexivity|]. rewrite Hlast. discriminate.
Defined.

(** ** The watchdog *)

(** What [c_str()] lets through. *)

Lemma c_string_no_NUL (s : string) :
  ~ In Ascii.zero (list_ascii_of_string (c_string s)).
Proof.
  induction s as [|c s IH]; simpl; [tauto|].
  destruct (Ascii.eqb c Ascii.zero) eqn:Hc; simpl; [tauto|].
  intros [Heq | Hin]; [|exact (IH Hin)].
  apply Ascii.eqb_neq in Hc. congruence.
Qed.

Lemma c_string_prefix (s : string) :
  exists rest,
    s = String.append (c_string s) rest
    /\ (rest = EmptyString \/ exists r, rest = String Ascii.zero r).
Proof.
  induction s as [|c s IH]; simpl.
  - exists EmptyString. split; [reflexivity | left; reflexivity].
  - destruct (Ascii.eqb c Ascii.zero) eqn:Hc.
    + apply Ascii.eqb_eq in Hc. subst c. exists (String Ascii.zero s).
      split; [reflexivity | right; eauto].
    + destruct IH as (rest & Hs & Hrest). exists rest.
      split; [simpl; congruence | exact Hrest].
Qed.

Lemma c_string_without_NUL (s : string) :
  ~ In Ascii.zero (list_ascii_of_string s) -> c_string s = s.
Proof.
  induction s as [|c s IH]; simpl; [reflexivity|].
  intros Hnot. destruct (Ascii.eqb c Ascii.zero) eqn:Hc.
  - apply Ascii.eqb_eq in Hc. elim Hnot. left. congruence.
  - f_equal. apply IH. tauto.
Qed.

(** C7, as stated: the connect attempt goes to (host, port, path).  It
    does not when the host holds a NUL byte: [lws_client_connect] is given
    [c_str()]s, and the host it is asked to connect to ends before the
    NUL. *)
Lemma connect_attempt_cuts_the_host_at_NUL :
  let r := RunWatchdog_iteration 1%N 2%N session_with_NUL_in_host in
  connection_state_ session_with_NUL_in_host = DISCONNECTED
  /\ host_ session_with_NUL_in_host = String "a" (String Ascii.zero "b")
  /\ connects (trace_of r) = [(live "a", 8080%Z, live "/jsonrpc")]
  /\ connects (trace_of r)
     <> [(live (host_ session_with_NUL_in_host),
          port_ session_with_NUL_in_host,
          live (path_ session_with_NUL_in_host))].
Proof.
  cbv zeta. repeat split; try reflexivity. discriminate.
Qed.

(** C7, amended.  A turn of the watchdog loop taken while the session is
    Disconnected: it sleeps 50 ms, creates a context (the protocol name in
    the creation info is a pointer that dangles by then), and then,
    between one lock and one unlock of the session mutex, stores that
    context and asks for a connection to the session's host, port and
    path, host and path as C strings: each ends at its first NUL byte.
    The state becomes Connecting exactly when the connect attempt returns
    a handle; nothing but the context and the state changes; the sleep and
    the creation are the only effects outside the lock.  A host and a path
    without NUL are passed whole. *)
Theorem watchdog_turn_while_disconnected
  (created connected : ptr) (ws : WebSocket) :
  connection_state_ ws = DISCONNECTED ->
  let r := RunWatchdog_iteration created connected ws in
  let address := String.append (host_ ws)
                   (String.append ":" (to_string (port_ ws))) in
  let connect :=
    lws_client_connect created (live (c_string (host_ ws))) (port_ ws) 0
                       (live (c_string (path_ ws)))
                       (live (c_string address))
                       (live (c_string (host_ ws))) connected in
  let state_store :=
    if N.eqb connected nullptr then [] else [store F_connection_state] in
  trace_of r
  = [usleep 50000; lws_create_context dangling created;
     pthread_mutex_lock; store F_context; connect]
    ++ state_store ++ [pthread_mutex_unlock]
  /\ outside false (trace_of r)
     = [usleep 50000; lws_create_context dangling created]
  /\ critical false (trace_of r) = [store F_context; connect] ++ state_store
  /\ context_ (state_of r) = created
  /\ (connection_state_ (state_of r) = CONNECTING <-> connected <> nullptr)
  /\ state_of r
     = (if N.eqb connected nullptr then with_context created ws
        else with_connection_state CONNECTING (with_context created ws))
  /\ connects (trace_of r)
     = [(live (c_string (host_ ws)), port_ ws, live (c_string (path_ ws)))]
  /\ (~ In Ascii.zero (list_ascii_of_string (host_ ws)) ->
      ~ In Ascii.zero (list_ascii_of_string (path_ ws)) ->
      connects (trace_of r) = [(live (host_ ws), port_ ws, live (path_ ws))]).
Proof.
  intros Hs. unfold RunWatchdog_iteration. unfold_methods.
  unfold state_of, trace_of. rewrite Hs. simpl.
  assert (Hwhole :
    ~ In Ascii.zero (list_ascii_of_string (host_ ws)) ->
    ~ In Ascii.zero (list_ascii_of_string (path_ ws)) ->
    [(live (c_string (host_ ws)), port_ ws, live (c_string (path_ ws)))]
    = [(live (host_ ws), port_ ws, live (path_ ws))]).
  { intros Hh Hp. now rewrite !c_string_without_NUL. }
  destruct (N.eqb connected nullptr) eqn:Hc; simpl.
  - apply N.eqb_eq in Hc. rewrite Hs.
    repeat split; try reflexivity; try discriminate; auto.
    intros Hne. now elim Hne.
  - apply N.eqb_neq in Hc. repeat split; auto.
Qed.

Lemma watchdog_turn_while_disconnected_witness :
  let ws0 := fst (WebSocket_new "localhost" 8080%Z "json" "/jsonrpc") in
  connection_state_ ws0 = DISCONNECTED
  /\ trace_of (RunWatchdog_iteration 1%N 2%N ws0)
     = [usleep 50000; lws_create_context dangling 1%N;
        pthread_mutex_lock; store F_context;
        lws_client_connect 1%N (live "localhost") 8080 0 (live "/jsonrpc")
                           (live "localhost:8080") (live "localhost") 2%N;
        store F_connection_state; pthread_mutex_unlock]
  /\ trace_of (RunWatchdog_iteration 1%N 0%N ws0)
     = [usleep 50000; lws_create_context dangling 1%N;
        pthread_mutex_lock; store F_context;
        lws_client_connect 1%N (live "localhost") 8080 0 (live "/jsonrpc")
                           (live "localhost:8080") (live "localhost") 0%N;
        pthread_mutex_unlock].
Proof.
  cbv zeta. split; [reflexivity | split].
  - exact (proj1 (watchdog_turn_while_disconnected 1%N 2%N
             (fst (WebSocket_new "localhost" 8080%Z "json" "/jsonrpc")) eq_refl)).
  - exact (proj1 (watchdog_turn_while_disconnected 1%N 0%N
             (fst (WebSocket_new "localhost" 8080%Z "json" "/jsonrpc")) eq_refl)).
Defined.

(** ** Waiting on the other threads *)



Lemma interleave_run (ops : list Op) (w : World) :
  interleave ops w
  = (state_of (run ops (fst w)), snd w ++ trace_of (run ops (fst w))).
Proof.
  unfold interleave, state_of, trace_of.
  destruct (run ops (fst w)) as [[[] ws'] tr']. reflexivity.
Qed.

Section Await.

Variable cond : World -> bool.
Variable pause : World -> World.
Hypothesis pause_session : forall w, fst (pause w) = fst w.
Hypothesis pause_written : forall w, written (snd (pause w)) = written (snd w).
Hypothesis pause_extends : forall w, exists tr, snd (pause w) = snd w ++ tr.


End Await.

(** ** Teardown *)

Lemma next_turn_hd_tl (env : list (list Op)) :
  next_turn env = (hd [] env, tl env).
Proof. destruct env; reflexivity. Qed.






Lemma WebSocket_destructor_exit_trace (ws : WebSocket) :
  trace_of ((RunWatchdog_exit ;; WebSocket_destructor_release) ws)
  = teardown_tail (context_ ws).
Proof.
  unfold RunWatchdog_exit, WebSocket_destructor_release, teardown_tail.
  unfold_methods. unfold trace_of. simpl.
  destruct (N.eqb (context_ ws) nullptr); reflexivity.
Qed.

(** The destructor up to its wait: [cleared] is the turn of the other
    threads after [clear()], [last_turn] the turn the watchdog finishes
    after the flag is cleared. *)
Lemma WebSocket_destructor_unfold (env : list (list Op)) (ws : WebSocket) :
  let cleared := run (hd [] env) (with_enqueued_messages [] ws) in
  let last_turn :=
    run (hd [] (tl env))
        (with_watchdog_thread_running false (state_of cleared)) in
  WebSocket_destructor env ws
  = match await interleave
                (fun w => negb (value_of (IsWatchDogThreadRunning (fst w))))
                (fun w => w) (tl (tl env))
                (state_of last_turn,
                 [store F_enqueued_messages] ++ trace_of cleared
                 ++ teardown_stop ++ trace_of last_turn) with
    | Blocked w => Blocked w
    | Returned _ w rest =>
        let '(_, ws3, tr3) :=
          (RunWatchdog_exit ;; WebSocket_destructor_release) (fst w) in
        Returned tt (ws3, snd w ++ tr3) rest
    end.
Proof.
  cbv zeta. unfold WebSocket_destructor, assign.
  rewrite !next_turn_hd_tl, !interleave_run. cbn [fst snd].
  unfold StopWatchDogThread at 1. unfold_methods. cbn [fst snd app].
  rewrite !interleave_run. cbn [fst snd].
  rewrite <- app_comm_cons, <- app_assoc. reflexivity.
Qed.


Lemma pausing_extends (e : Effect) (w : World) :
  exists tr, snd (pausing e w) = snd w ++ tr.
Proof. exists [e]. reflexivity. Qed.




(** ** The synchronous call *)

(** A wait on its own terms: it returns with its condition true after some
    turns of the other threads, or stays blocked with the condition false
    at its last look; the trace only grows. *)
Lemma await_basic (cond : World -> bool) (pause : World -> World)
  (env : list (list Op)) (w : World) :
  (forall w0, exists tr, snd (pause w0) = snd w0 ++ tr) ->
  match await interleave cond pause env w with
  | Returned _ w' rest =>
      cond w' = true
      /\ (exists n, rest = skipn n env)
      /\ (exists tr, snd w' = snd w ++ tr)
  | Blocked w' =>
      (exists w_last, w' = pause w_last /\ cond w_last = false)
      /\ (exists tr, snd w' = snd w ++ tr)
  end.
Proof.
  intros Hpause. revert w. induction env as [|turn env IH]; intros w; simpl.
  - destruct (cond w) eqn:Hc.
    + split; [exact Hc|]. split; [exists O; reflexivity|].
      exists []. now rewrite app_nil_r.
    + split; [exists w; auto | apply Hpause].
  - destruct (cond w) eqn:Hc.
    + split; [exact Hc|]. split; [exists O; reflexivity|].
      exists []. now rewrite app_nil_r.
    + assert (Hext : exists tr, snd (interleave turn (pause w)) = snd w ++ tr).
      { destruct (Hpause w) as [tr Htr]. rewrite interleave_run.
        simpl snd. rewrite Htr, <- app_assoc. eauto. }
      destruct Hext as [tr0 Htr0].
      specialize (IH (interleave turn (pause w))).
      destruct (await interleave cond pause env (interleave turn (pause w)))
        as [[] w' rest | w'].
      * destruct IH as (Hcw & (n & Hrest) & (tr & Htr)).
        split; [exact Hcw|]. split; [exists (S n); exact Hrest|].
        exists (tr0 ++ tr). now rewrite Htr, Htr0, <- app_assoc.
      * destruct IH as (Hlast & (tr & Htr)).
        split; [exact Hlast|].
        exists (tr0 ++ tr). now rewrite Htr, Htr0, <- app_assoc.
Qed.



(** The round trip of the specification's scenario: the request is queued,
    written on the Writable event, and the handler's offer of the reply
    ends the wait. *)
Example SendSynchronousRequest_ping_pong :
  let writable := Callback 2%N LWS_CALLBACK_CLIENT_WRITEABLE EmptyString in
  let pong := Callback 2%N LWS_CALLBACK_CLIENT_RECEIVE "pong" in
  match SendSynchronousRequest "ping" [[writable; pong]] connected_session with
  | Returned response w rest =>
      response = "pong" /\ written (snd w) = ["ping"] /\ rest = []
  | Blocked _ => False
  end.
Proof. cbv zeta. repeat split. Qed.

(** * More of the code *)

(** ** Splitting runs and traces *)

Lemma state_of_run_app (ops1 ops2 : list Op) (ws : WebSocket) :
  state_of (run (ops1 ++ ops2) ws) = state_of (run ops2 (state_of (run ops1 ws))).
Proof.
  revert ws. induction ops1 as [|op ops1 IH]; intros ws; [reflexivity|].
  rewrite <- app_comm_cons, !state_of_run_cons. apply IH.
Qed.

Lemma trace_of_run_app (ops1 ops2 : list Op) (ws : WebSocket) :
  trace_of (run (ops1 ++ ops2) ws)
  = trace_of (run ops1 ws) ++ trace_of (run ops2 (state_of (run ops1 ws))).
Proof.
  revert ws. induction ops1 as [|op ops1 IH]; intros ws; [reflexivity|].
  rewrite <- app_comm_cons, !trace_of_run_cons, state_of_run_cons, IH.
  now rewrite app_assoc.
Qed.

Lemma interleave_app (ops1 ops2 : list Op) (w : World) :
  interleave ops2 (interleave ops1 w) = interleave (ops1 ++ ops2) w.
Proof.
  rewrite !interleave_run. cbn [fst snd].
  now rewrite state_of_run_app, trace_of_run_app, app_assoc.
Qed.

(** A wait that pauses without effect leaves what the other threads did
    in the turns it let them take. *)
Lemma await_runs (cond : World -> bool) (env : list (list Op)) (w : World) :
  exists ops,
    world_of (await interleave cond (fun w' => w') env w) = interleave ops w.
Proof.
  assert (Hnil : forall w0 : World, w0 = interleave [] w0).
  { intros [ws tr]. unfold interleave. simpl. now rewrite app_nil_r. }
  revert w. induction env as [|turn env IH]; intros w; simpl.
  - exists []. destruct (cond w); apply Hnil.
  - destruct (cond w).
    + exists []. apply Hnil.
    + destruct (IH (interleave turn w)) as [ops Hops].
      exists (turn ++ ops). now rewrite Hops, interleave_app.
Qed.

(** What the destructor leaves behind, whether [pthread_join] returns or
    not: [ops1] is what the other threads did after [clear()], [ops2] what
    they did while the destructor waited. *)
Lemma WebSocket_destructor_world (env : list (list Op)) (ws : WebSocket) :
  exists ops1 ops2,
    let cleared := run ops1 (with_enqueued_messages [] ws) in
    let waited :=
      run ops2 (with_watchdog_thread_running false (state_of cleared)) in
    match WebSocket_destructor env ws with
    | Returned _ w _ =>
        snd w = [store F_enqueued_messages] ++ trace_of cleared
                ++ teardown_stop ++ trace_of waited
                ++ teardown_tail (context_ (state_of waited))
    | Blocked w =>
        snd w = [store F_enqueued_messages] ++ trace_of cleared
                ++ teardown_stop ++ trace_of waited
    end.
Proof.
  rewrite WebSocket_destructor_unfold.
  set (cleared := run (hd [] env) (with_enqueued_messages [] ws)).
  set (stopped := with_watchdog_thread_running false (state_of cleared)).
  set (head := [store F_enqueued_messages] ++ trace_of cleared ++ teardown_stop).
  assert (Hstart :
    (state_of (run (hd [] (tl env)) stopped),
     [store F_enqueued_messages] ++ trace_of cleared ++ teardown_stop
     ++ trace_of (run (hd [] (tl env)) stopped))
    = interleave (hd [] (tl env)) (stopped, head)).
  { rewrite interleave_run. cbn [fst snd]. unfold head.
    now rewrite <- !app_assoc. }
  rewrite Hstart.
  destruct (await_runs
              (fun w => negb (value_of (IsWatchDogThreadRunning (fst w))))
              (tl (tl env)) (interleave (hd [] (tl env)) (stopped, head)))
    as [ops Hops].
  exists (hd [] env), (hd [] (tl env) ++ ops). cbv zeta.
  fold cleared. fold stopped.
  destruct (await interleave _ _ (tl (tl env)) _) as [[] w rest | w];
    simpl in Hops; rewrite interleave_app, interleave_run in Hops;
    cbn [fst snd] in Hops; subst w; cbn [fst snd];
    [|unfold head; now rewrite <- !app_assoc].
  pose proof (WebSocket_destructor_exit_trace
                (state_of (run (hd [] (tl env) ++ ops) stopped))) as Htail.
  unfold trace_of in Htail at 1.
  destruct ((RunWatchdog_exit ;; WebSocket_destructor_release)
              (state_of (run (hd [] (tl env) ++ ops) stopped)))
    as [[[] ws'] tr].
  simpl in Htail. subst tr. cbn [snd]. unfold head.
  now rewrite <- !app_assoc.
Qed.

Lemma lock_discipline_app (held : bool) (tr1 tr2 : list Effect) :
  lock_discipline held (tr1 ++ tr2)
  = match lock_discipline held tr1 with
    | Some held' => lock_discipline held' tr2
    | None => None
    end.
Proof.
  revert held. induction tr1 as [|e tr1 IH]; intros held; [reflexivity|].
  destruct e, held; simpl; auto.
Qed.

Lemma connects_app (tr1 tr2 : list Effect) :
  connects (tr1 ++ tr2) = connects tr1 ++ connects tr2.
Proof.
  induction tr1 as [|e tr1 IH]; [reflexivity|].
  destruct e; simpl; rewrite IH; reflexivity.
Qed.

Lemma sleeps_app (tr1 tr2 : list Effect) :
  sleeps (tr1 ++ tr2) = sleeps tr1 ++ sleeps tr2.
Proof.
  induction tr1 as [|e tr1 IH]; [reflexivity|].
  destruct e; simpl; rewrite IH; reflexivity.
Qed.

Lemma created_app (tr1 tr2 : list Effect) :
  created (tr1 ++ tr2) = created tr1 ++ created tr2.
Proof.
  induction tr1 as [|e tr1 IH]; [reflexivity|].
  destruct e; simpl; rewrite IH; reflexivity.
Qed.

Lemma destroyed_app (tr1 tr2 : list Effect) :
  destroyed (tr1 ++ tr2) = destroyed tr1 ++ destroyed tr2.
Proof.
  induction tr1 as [|e tr1 IH]; [reflexivity|].
  destruct e; simpl; rewrite IH; reflexivity.
Qed.

Lemma notifications_app (tr1 tr2 : list Effect) :
  notifications (tr1 ++ tr2) = notifications tr1 ++ notifications tr2.
Proof.
  induction tr1 as [|e tr1 IH]; [reflexivity|].
  destruct e; simpl; rewrite IH; reflexivity.
Qed.

Lemma last_cons_default {A : Type} (a : A) (l : list A) (d : A) :
  last (a :: l) d = last l a.
Proof.
  revert a d. induction l as [|b l IH]; intros a d; [reflexivity|].
  change (last (a :: b :: l) d) with (last (b :: l) d).
  rewrite (IH b d), (IH b a). reflexivity.
Qed.

Lemma last_app_default {A : Type} (l1 l2 : list A) (d : A) :
  last (l1 ++ l2) d = last l2 (last l1 d).
Proof.
  revert d. induction l1 as [|a l1 IH]; intros d; [reflexivity|].
  rewrite <- app_comm_cons, !last_cons_default. apply IH.
Qed.

(** ** The outbound path under any interleaving *)

(** X1.  From the construction of a session on, whatever the order in
    which callers send, the transport calls back and the watchdog turns:
    the messages written so far followed by the messages still queued are
    the messages sent, in the order of the calls of [SendAsync].  So
    nothing is written twice, out of order or dropped. *)
Theorem written_then_queued_is_what_was_sent
  (host : string) (port : Z) (protocol path : string) (ops : list Op) :
  let r := run ops (fst (WebSocket_new host port protocol path)) in
  written (trace_of r) ++ enqueued_messages_ (state_of r) = sent ops.
Proof.
  cbv zeta.
  assert (Hd : queue_discipline (fst (WebSocket_new host port protocol path)))
    by (intros Hw; discriminate Hw).
  exact (proj2 (run_conserves ops _ Hd)).
Qed.

(** ** The session mutex *)

Lemma step_lock_discipline (op : Op) (ws : WebSocket) :
  incoming_message_handler_ ws <> None ->
  lock_discipline false (trace_of (step op ws)) = Some false.
Proof. intros Hh. step_cases op ws; try reflexivity. now elim Hh. Qed.

Lemma step_keeps_the_handler (op : Op) (ws : WebSocket) :
  incoming_message_handler_ (state_of (step op ws))
  = incoming_message_handler_ ws.
Proof.
  destruct op as [message | wsi reason in_ | | created connected];
    unfold_methods; unfold state_of;
    [ destruct (writable_ ws)
    | destruct (N.eqb wsi nullptr);
      [ | destruct reason;
          [ | | | destruct (incoming_message_handler_ ws) eqn:Hh
            | destruct (enqueued_messages_ ws) eqn:Hq | ] ]
    |
    | destruct (connection_state_ ws);
      [ destruct (N.eqb connected nullptr) | | ] ];
    simpl; rewrite ?Hq; simpl; auto.
Qed.

(** X2.  On a session with a handler, in every run of callers'
    [SendAsync]s, callbacks of the dispatcher and turns of the watchdog,
    the session mutex is never locked while held nor unlocked while free,
    every store to a member of the session and every [lws_write] happens
    with the mutex held, and the mutex is free at the end.  On a session
    without a handler a Receive callback takes the mutex, calls through
    the null handler and never gives the mutex back.  The destructor is
    outside the discipline: it stores members with the mutex free. *)
Theorem session_members_change_under_the_mutex (ops : list Op) (ws : WebSocket) :
  incoming_message_handler_ ws <> None ->
  lock_discipline false (trace_of (run ops ws)) = Some false
  /\ (forall (wsi : ptr) (in_ : string) (ws' : WebSocket),
        wsi <> nullptr ->
        incoming_message_handler_ ws' = None ->
        OnWebSocketEvent wsi LWS_CALLBACK_CLIENT_RECEIVE in_ ws'
        = (Undefined, ws', [pthread_mutex_lock; null_dereference])
        /\ lock_discipline false
             (trace_of (OnWebSocketEvent wsi LWS_CALLBACK_CLIENT_RECEIVE in_ ws'))
           = Some true)
  /\ (forall env : list (list Op),
        lock_discipline false (snd (world_of (WebSocket_destructor env ws)))
        = None).
Proof.
  intros Hh. split; [|split].
  - revert ws Hh. induction ops as [|op ops IH]; intros ws Hh; [reflexivity|].
    rewrite trace_of_run_cons, lock_discipline_app, step_lock_discipline
      by exact Hh.
    apply IH. now rewrite step_keeps_the_handler.
  - intros wsi in_ ws' Hwsi Hnone. apply N.eqb_neq in Hwsi.
    unfold_methods. unfold trace_of. rewrite Hwsi, Hnone. split; reflexivity.
  - intros env.
    destruct (WebSocket_destructor_world env ws) as (ops1 & ops2 & Hw).
    cbv zeta in Hw.
    destruct (WebSocket_destructor env ws) as [[] w rest | w];
      simpl world_of; rewrite Hw; reflexivity.
Qed.

Lemma session_members_change_under_the_mutex_witness :
  let ops := [CallSendAsync "a";
              Callback 2%N LWS_CALLBACK_CLIENT_RECEIVE "b";
              Callback 2%N LWS_CALLBACK_CLOSED EmptyString;
              WatchdogIteration 3%N 4%N] in
  incoming_message_handler_ connected_session <> None
  /\ lock_discipline false (trace_of (run ops connected_session)) = Some false.
Proof.
  cbv zeta.
  assert (Hh : incoming_message_handler_ connected_session <> None)
    by discriminate.
  split; [exact Hh|].
  exact (proj1 (session_members_change_under_the_mutex _ connected_session Hh)).
Defined.

(** ** The endpoint and the reconnect loop *)

(** No action of the threads touches the endpoint or the handler, and a
    connect attempt goes to the session's endpoint. *)
Lemma step_frame (op : Op) (ws : WebSocket) :
  host_ (state_of (step op ws)) = host_ ws
  /\ port_ (state_of (step op ws)) = port_ ws
  /\ protocol_name_ (state_of (step op ws)) = protocol_name_ ws
  /\ path_ (state_of (step op ws)) = path_ ws
  /\ incoming_message_handler_ (state_of (step op ws))
     = incoming_message_handler_ ws
  /\ Forall (eq (live (c_string (host_ ws)), port_ ws,
                 live (c_string (path_ ws))))
            (connects (trace_of (step op ws))).
Proof.
  destruct op as [message | wsi reason in_ | | created connected];
    unfold_methods; unfold state_of, trace_of;
    [ destruct (writable_ ws)
    | destruct (N.eqb wsi nullptr);
      [ | destruct reason;
          [ | | | destruct (incoming_message_handler_ ws) eqn:Hh
            | destruct (enqueued_messages_ ws) eqn:Hq | ] ]
    |
    | destruct (connection_state_ ws);
      [ destruct (N.eqb connected nullptr) | | ] ];
    simpl; rewrite ?Hq; simpl; repeat split; auto.
Qed.

Lemma run_frame (ops : list Op) (ws : WebSocket) :
  host_ (state_of (run ops ws)) = host_ ws
  /\ port_ (state_of (run ops ws)) = port_ ws
  /\ protocol_name_ (state_of (run ops ws)) = protocol_name_ ws
  /\ path_ (state_of (run ops ws)) = path_ ws
  /\ incoming_message_handler_ (state_of (run ops ws))
     = incoming_message_handler_ ws
  /\ Forall (eq (live (c_string (host_ ws)), port_ ws,
                 live (c_string (path_ ws))))
            (connects (trace_of (run ops ws))).
Proof.
  revert ws. induction ops as [|op ops IH]; intros ws.
  - repeat split; auto.
  - rewrite state_of_run_cons, trace_of_run_cons, connects_app.
    destruct (step_frame op ws) as (Hh & Hp & Hn & Hpa & Hm & Hc).
    destruct (IH (state_of (step op ws))) as (Hh' & Hp' & Hn' & Hpa' & Hm' & Hc').
    rewrite Hh, Hp, Hpa in Hc'.
    repeat split; try congruence. apply Forall_app. split; assumption.
Qed.

(** X3.  The endpoint given to the constructor is never reassigned: after
    any run of sends, callbacks and watchdog turns the session has the
    host, port, protocol and path it was built with, and every connect
    attempt made on the way, first or repeated, was given that port and,
    as C strings, that host and that path: the host and the path up to
    their first NUL byte, whole when they hold none. *)
Theorem every_connect_goes_to_the_constructed_endpoint
  (host : string) (port : Z) (protocol path : string) (ops : list Op) :
  let r := run ops (fst (WebSocket_new host port protocol path)) in
  host_ (state_of r) = host
  /\ port_ (state_of r) = port
  /\ protocol_name_ (state_of r) = protocol
  /\ path_ (state_of r) = path
  /\ Forall (eq (live (c_string host), port, live (c_string path)))
            (connects (trace_of r))
  /\ (~ In Ascii.zero (list_ascii_of_string host) ->
      ~ In Ascii.zero (list_ascii_of_string path) ->
      Forall (eq (live host, port, live path)) (connects (trace_of r))).
Proof.
  cbv zeta.
  destruct (run_frame ops (fst (WebSocket_new host port protocol path)))
    as (Hh & Hp & Hn & Hpa & _ & Hc).
  repeat split; try assumption.
  intros Hhost Hpath. simpl in Hc.
  now rewrite (c_string_without_NUL host), (c_string_without_NUL path) in Hc.
Qed.

(** Turns of the watchdog in which the connect attempt fails. *)
Lemma failed_connects (contexts : list ptr) (ws : WebSocket) :
  connection_state_ ws = DISCONNECTED ->
  let r := run (map (fun c => WatchdogIteration c nullptr) contexts) ws in
  connection_state_ (state_of r) = DISCONNECTED
  /\ handle_ (state_of r) = handle_ ws
  /\ context_ (state_of r) = last contexts (context_ ws)
  /\ sleeps (trace_of r) = repeat 50000%Z (List.length contexts)
  /\ created (trace_of r) = contexts
  /\ List.length (connects (trace_of r)) = List.length contexts.
Proof.
  revert ws. induction contexts as [|c contexts IH]; intros ws Hs; cbv zeta.
  - unfold state_of, trace_of. simpl. repeat split; auto.
  - simpl map. rewrite state_of_run_cons, trace_of_run_cons.
    rewrite sleeps_app, created_app, connects_app, length_app.
    assert (Hstep :
      state_of (step (WatchdogIteration c nullptr) ws) = with_context c ws
      /\ sleeps (trace_of (step (WatchdogIteration c nullptr) ws)) = [50000%Z]
      /\ created (trace_of (step (WatchdogIteration c nullptr) ws)) = [c]
      /\ List.length (connects (trace_of (step (WatchdogIteration c nullptr) ws)))
         = 1).
    { unfold_methods. unfold state_of, trace_of. rewrite Hs. simpl.
      repeat split; auto. }
    destruct Hstep as (Hst & Hsl & Hcr & Hco). rewrite Hst, Hsl, Hcr, Hco.
    destruct (IH (with_context c ws) Hs) as (H1 & H2 & H3 & H4 & H5 & H6).
    rewrite H1, H2, H3, H4, H5, H6. rewrite last_cons_default.
    simpl. repeat split; auto.
Qed.

(** X4.  Reconnecting.  From a Disconnected session, any number of turns
    of the watchdog whose connect attempt fails, then a turn whose attempt
    returns a handle, then the Established callback for a handle [wsi]:
    the session is Connected and holds [wsi] and the last context created.
    Every turn on the way slept the same 50 ms and created a context of
    its own; failed attempts never lengthen the wait between retries and
    are not counted. *)
Theorem watchdog_retries_until_connected
  (contexts : list ptr) (context connected wsi : ptr) (in_ : string)
  (ws : WebSocket) :
  connection_state_ ws = DISCONNECTED ->
  connected <> nullptr ->
  wsi <> nullptr ->
  let failed := map (fun c => WatchdogIteration c nullptr) contexts in
  let waiting := state_of (run (failed ++ [WatchdogIteration context connected]) ws) in
  let r := run (failed ++ [WatchdogIteration context connected;
                           Callback wsi LWS_CALLBACK_CLIENT_ESTABLISHED in_]) ws in
  connection_state_ (state_of (run failed ws)) = DISCONNECTED
  /\ connection_state_ waiting = CONNECTING
  /\ connection_state_ (state_of r) = CONNECTED
  /\ handle_ (state_of r) = wsi
  /\ context_ (state_of r) = context
  /\ sleeps (trace_of r) = repeat 50000%Z (S (List.length contexts))
  /\ created (trace_of r) = contexts ++ [context].
Proof.
  intros Hs Hc Hw failed waiting r.
  destruct (failed_connects contexts ws Hs) as (H1 & H2 & H3 & H4 & H5 & _).
  fold failed in H1, H2, H3, H4, H5.
  apply N.eqb_neq in Hc. apply N.eqb_neq in Hw.
  assert (Hturn :
    forall ws', connection_state_ ws' = DISCONNECTED ->
      state_of (step (WatchdogIteration context connected) ws')
      = with_connection_state CONNECTING (with_context context ws')
      /\ sleeps (trace_of (step (WatchdogIteration context connected) ws'))
         = [50000%Z]
      /\ created (trace_of (step (WatchdogIteration context connected) ws'))
         = [context]).
  { intros ws' Hs'. unfold_methods. unfold state_of, trace_of.
    rewrite Hs'. simpl. rewrite Hc. simpl. auto. }
  destruct (Hturn _ H1) as (Ht1 & Ht2 & Ht3).
  assert (Hest :
    forall ws',
      state_of (step (Callback wsi LWS_CALLBACK_CLIENT_ESTABLISHED in_) ws')
      = with_handle wsi (with_connection_state CONNECTED ws')
      /\ sleeps (trace_of (step (Callback wsi LWS_CALLBACK_CLIENT_ESTABLISHED in_) ws'))
         = []
      /\ created (trace_of (step (Callback wsi LWS_CALLBACK_CLIENT_ESTABLISHED in_) ws'))
         = []).
  { intros ws'. unfold_methods. unfold state_of, trace_of.
    rewrite Hw. simpl. auto. }
  split; [exact H1|]. split.
  { subst waiting. rewrite state_of_run_app.
    change (run [WatchdogIteration context connected] (state_of (run failed ws)))
      with (run (WatchdogIteration context connected :: []) (state_of (run failed ws))).
    rewrite state_of_run_cons, Ht1. reflexivity. }
  subst r. rewrite state_of_run_app, trace_of_run_app.
  rewrite !state_of_run_cons, !trace_of_run_cons.
  rewrite sleeps_app, created_app, !sleeps_app, !created_app.
  rewrite Ht1, Ht2, Ht3.
  destruct (Hest (with_connection_state CONNECTING
                    (with_context context (state_of (run failed ws)))))
    as (He1 & He2 & He3).
  rewrite He1, He2, He3, H4, H5.
  change (run [] ?x) with (ret tt x) in *.
  unfold ret, state_of, trace_of. cbn [fst snd sleeps created app].
  repeat split; auto.
  symmetry. apply repeat_cons.
Qed.

Lemma watchdog_retries_until_connected_witness :
  let ws0 := fst (WebSocket_new "localhost" 8080%Z "json" "/jsonrpc") in
  let ops := [WatchdogIteration 1%N 0%N; WatchdogIteration 2%N 0%N;
              WatchdogIteration 3%N 7%N;
              Callback 7%N LWS_CALLBACK_CLIENT_ESTABLISHED EmptyString] in
  connection_state_ ws0 = DISCONNECTED
  /\ connection_state_ (state_of (run ops ws0)) = CONNECTED
  /\ sleeps (trace_of (run ops ws0)) = [50000; 50000; 50000]%Z.
Proof.
  cbv zeta.
  assert (Hc : 7%N <> nullptr) by discriminate.
  destruct (watchdog_retries_until_connected [1%N; 2%N] 3%N 7%N 7%N EmptyString
              (fst (WebSocket_new "localhost" 8080%Z "json" "/jsonrpc"))
              eq_refl Hc Hc)
    as (_ & _ & Hstate & _ & _ & Hsleeps & _).
  split; [reflexivity | split; [exact Hstate | exact Hsleeps]].
Defined.

(** What one action does to the context, and which contexts it creates
    and destroys. *)
Lemma step_contexts (op : Op) (ws : WebSocket) :
  context_ (state_of (step op ws))
  = last (created (trace_of (step op ws))) (context_ ws)
  /\ destroyed (trace_of (step op ws)) = [].
Proof. step_cases op ws; split; reflexivity. Qed.

Lemma run_contexts (ops : list Op) (ws : WebSocket) :
  destroyed (trace_of (run ops ws)) = []
  /\ context_ (state_of (run ops ws))
     = last (created (trace_of (run ops ws))) (context_ ws).
Proof.
  split.
  - revert ws. induction ops as [|op ops IH]; intros ws; [reflexivity|].
    rewrite trace_of_run_cons, destroyed_app, IH.
    now rewrite (proj2 (step_contexts op ws)).
  - revert ws. induction ops as [|op ops IH]; intros ws; [reflexivity|].
    rewrite state_of_run_cons, trace_of_run_cons, created_app, last_app_default.
    rewrite IH. now rewrite (proj1 (step_contexts op ws)).
Qed.

(** X5.  Contexts are created and never given back while the session
    lives: no send, callback or watchdog turn destroys a context, the
    session's context is always the last one created (the one it was
    built with when none was), and when the watchdog exits it destroys
    that one context only, or none when the pointer is null.  So the
    destructor, once [pthread_join] has returned, has destroyed the last
    context created, the watchdog's last turns counted, and no other;
    while [pthread_join] has not returned nothing is destroyed.  The
    contexts of earlier connect attempts are never destroyed. *)
Theorem only_the_last_context_is_destroyed
  (ops : list Op) (env : list (list Op)) (ws : WebSocket) :
  let r := run ops ws in
  destroyed (trace_of r) = []
  /\ context_ (state_of r) = last (created (trace_of r)) (context_ ws)
  /\ destroyed (trace_of (RunWatchdog_exit (state_of r)))
     = (if N.eqb (context_ (state_of r)) nullptr then []
        else [context_ (state_of r)])
  /\ match WebSocket_destructor env (state_of r) with
     | Returned _ w _ =>
         let context := last (created (snd w)) (context_ (state_of r)) in
         destroyed (snd w)
         = (if N.eqb context nullptr then [] else [context])
     | Blocked w => destroyed (snd w) = []
     end.
Proof.
  cbv zeta. split; [|split; [|split]].
  - apply run_contexts.
  - apply run_contexts.
  - unfold RunWatchdog_exit. unfold_methods. unfold trace_of. simpl.
    destruct (N.eqb (context_ (state_of (run ops ws))) nullptr); reflexivity.
  - destruct (WebSocket_destructor_world env (state_of (run ops ws)))
      as (ops1 & ops2 & Hw).
    cbv zeta in Hw.
    set (cleared := run ops1 (with_enqueued_messages [] (state_of (run ops ws))))
      in *.
    set (waited := run ops2 (with_watchdog_thread_running false
                               (state_of cleared))) in *.
    destruct (run_contexts ops1 (with_enqueued_messages [] (state_of (run ops ws))))
      as [Hnone1 Hlast1].
    destruct (run_contexts ops2 (with_watchdog_thread_running false
                                   (state_of cleared)))
      as [Hnone2 Hlast2].
    fold cleared in Hnone1, Hlast1. fold waited in Hnone2, Hlast2.
    cbn [context_ with_enqueued_messages with_watchdog_thread_running]
      in Hlast1, Hlast2.
    destruct (WebSocket_destructor env (state_of (run ops ws)))
      as [[] w rest | w]; rewrite Hw.
    + rewrite !created_app, !destroyed_app, Hnone1, Hnone2, !last_app_default.
      assert (Htail : forall c, created (teardown_tail c) = [])
        by (intros c; unfold teardown_tail; destruct (N.eqb c nullptr);
            reflexivity).
      rewrite Htail. change (created teardown_stop) with (@nil ptr).
      cbn [last created]. rewrite <- Hlast1, <- Hlast2. unfold teardown_tail.
      destruct (N.eqb (context_ (state_of waited)) nullptr); reflexivity.
    + now rewrite !destroyed_app, Hnone1, Hnone2.
Qed.

(** ** Opening and closing the client *)

Section AwaitInvariant.

Variable P : WebSocket -> Prop.
Hypothesis P_step : forall op ws, P ws -> P (state_of (step op ws)).



End AwaitInvariant.




Lemma step_not_connected (op : Op) (ws : WebSocket) :
  is_established op = false ->
  connection_state_ ws <> CONNECTED ->
  connection_state_ (state_of (step op ws)) <> CONNECTED.
Proof.
  intros Hop Hs. step_cases op ws; try assumption; try discriminate.
Qed.

Lemma run_not_connected (ops : list Op) (ws : WebSocket) :
  existsb is_established ops = false ->
  connection_state_ ws <> CONNECTED ->
  connection_state_ (state_of (run ops ws)) <> CONNECTED.
Proof.
  revert ws. induction ops as [|op ops IH]; intros ws Hops Hs; [exact Hs|].
  simpl in Hops. apply orb_false_elim in Hops. destruct Hops as [Hop Hops].
  rewrite state_of_run_cons. apply IH; [exact Hops|].
  now apply step_not_connected.
Qed.

Lemma await_connected_blocks (e : Effect) (env : list (list Op)) (w : World) :
  existsb is_established (List.concat env) = false ->
  connection_state_ (fst w) <> CONNECTED ->
  response_of
    (await interleave
       (fun w' => WebSocketConnectState_eqb (connection_state_ (fst w')) CONNECTED)
       (pausing e) env w)
  = None.
Proof.
  revert w. induction env as [|turn env IH]; intros w Henv Hs; simpl.
  - destruct (connection_state_ (fst w)); try reflexivity. now elim Hs.
  - simpl in Henv. rewrite existsb_app in Henv.
    apply orb_false_elim in Henv. destruct Henv as [Hturn Henv].
    destruct (connection_state_ (fst w)) eqn:Hst; simpl;
      try (apply IH; [exact Henv|]; rewrite interleave_run; simpl;
           apply run_not_connected; [exact Hturn | congruence]).
    now elim Hs.
Qed.

(** X7.  The only way out of [OpenWebSocket] is an Established callback:
    as long as the transport reports none (whatever else the watchdog,
    the transport and other callers do, and however often the connect
    attempt returns a handle) the constructor of the client does not
    return. *)
Theorem OpenWebSocket_waits_for_Established
  (host : string) (port : Z) (protocol path : string)
  (message_handler : WebSocketMessageHandler) (env : list (list Op)) :
  existsb is_established (List.concat env) = false ->
  response_of (OpenWebSocket host port protocol path message_handler env)
  = None.
Proof.
  intros Henv. unfold OpenWebSocket.
  apply await_connected_blocks; [exact Henv | discriminate].
Qed.

Lemma OpenWebSocket_waits_for_Established_witness :
  let env := [[WatchdogStarted; WatchdogIteration 1%N 2%N];
              [WatchdogIteration 3%N 4%N;
               Callback 2%N LWS_CALLBACK_CLIENT_WRITEABLE EmptyString];
              [CallSendAsync "ping"]] in
  existsb is_established (List.concat env) = false
  /\ response_of (OpenWebSocket "localhost" 8080%Z "json" "/jsonrpc"
                                offering_handler env) = None.
Proof.
  cbv zeta. split; [reflexivity|].
  apply OpenWebSocket_waits_for_Established. reflexivity.
Defined.

(** One action shortens the outbound queue by at most one message, and
    only a Writable callback shortens it at all. *)
Lemma step_queue_length (op : Op) (ws : WebSocket) :
  List.length (enqueued_messages_ ws)
  <= List.length (enqueued_messages_ (state_of (step op ws)))
     + (if is_writable_callback op then 1 else 0).
Proof.
  step_cases op ws; rewrite ?length_app; simpl; try lia.
Qed.

Lemma run_queue_length (ops : list Op) (ws : WebSocket) :
  List.length (enqueued_messages_ ws)
  <= List.length (enqueued_messages_ (state_of (run ops ws)))
     + List.length (filter is_writable_callback ops).
Proof.
  revert ws. induction ops as [|op ops IH]; intros ws;
    [unfold state_of; simpl; lia|].
  rewrite state_of_run_cons. specialize (IH (state_of (step op ws))).
  pose proof (step_queue_length op ws) as Hstep. simpl filter.
  destruct (is_writable_callback op); simpl; lia.
Qed.

Lemma drain_blocks (env : list (list Op)) (w : World) :
  List.length (filter is_writable_callback (List.concat env))
  < List.length (enqueued_messages_ (fst w)) ->
  response_of (CloseWebSocket_drain env w) = None.
Proof.
  unfold CloseWebSocket_drain.
  revert w. induction env as [|turn env IH]; intros w Hlt; simpl.
  - unfold HasEnqueuedMessages, read, value_of. simpl.
    destruct (enqueued_messages_ (fst w)); [simpl in Hlt; lia | reflexivity].
  - unfold HasEnqueuedMessages at 1, read, value_of. simpl.
    destruct (enqueued_messages_ (fst w)) eqn:Hq; [simpl in Hlt; lia|]. simpl.
    apply IH. rewrite interleave_run. simpl fst.
    simpl in Hlt. rewrite filter_app, length_app in Hlt.
    pose proof (run_queue_length turn (fst w)) as Hrun. rewrite Hq in Hrun.
    simpl in Hrun. lia.
Qed.

(** X8.  Teardown needs the transport: each Writable callback takes at
    most one message off the queue and nothing else takes any, so while
    the callbacks delivered to the session are fewer than the messages
    queued when [CloseWebSocket] starts, [CloseWebSocket] stays in its
    sleep loop and the session is not destroyed. *)
Theorem CloseWebSocket_needs_a_Writable_event_per_message
  (env : list (list Op)) (ws : WebSocket) :
  List.length (filter is_writable_callback (List.concat env))
  < List.length (enqueued_messages_ ws) ->
  exists ws' tr,
    CloseWebSocket env (Some ws) = Blocked (Some ws', tr)
    /\ enqueued_messages_ ws' <> [].
Proof.
  intros Hlt.
  pose proof (drain_blocks env (ws, []) Hlt) as Hblocks.
  pose proof (await_basic
                (fun w' => negb (value_of (HasEnqueuedMessages (fst w'))))
                (pausing (sleep 1)) env (ws, [])
                (pausing_extends (sleep 1))) as Hbasic.
  unfold CloseWebSocket. fold (CloseWebSocket_drain env (ws, [])) in Hbasic.
  destruct (CloseWebSocket_drain env (ws, [])) as [[] w rest | w];
    [discriminate Hblocks|].
  exists (fst w), (snd w). split; [reflexivity|].
  destruct Hbasic as ((w_last & Hw & Hc) & _). subst w.
  unfold HasEnqueuedMessages, read, value_of in Hc. simpl in Hc. simpl.
  destruct (enqueued_messages_ (fst w_last)); discriminate.
Qed.

Lemma CloseWebSocket_needs_a_Writable_event_per_message_witness :
  let two_queued := state_of (SendAsync "b" queued_session) in
  let env := [[Callback 2%N LWS_CALLBACK_CLIENT_WRITEABLE EmptyString];
              [Callback 2%N LWS_CALLBACK_CLIENT_RECEIVE "pong";
               WatchdogIteration 3%N 4%N]] in
  enqueued_messages_ two_queued = ["a"; "b"]
  /\ exists ws' tr,
       CloseWebSocket env (Some two_queued) = Blocked (Some ws', tr)
       /\ enqueued_messages_ ws' <> [].
Proof.
  cbv zeta. split; [reflexivity|].
  apply CloseWebSocket_needs_a_Writable_event_per_message.
  simpl. lia.
Defined.

(** ** What a synchronous call returns *)

Lemma offers_cons_last {E : Type} (e : E) (es : list E) (q : SBQ.t E) :
  SBQ.offers (e :: es) q = SBQ.Offer (last es e) q.
Proof.
  assert (Hne : e :: es <> []) by discriminate.
  destruct (exists_last Hne) as [es' [y Hy]].
  rewrite Hy, offers_last. f_equal.
  rewrite <- (last_cons_default e es y), Hy, last_app_default. reflexivity.
Qed.

Lemma offered_app (handler : option WebSocketMessageHandler)
  (ops1 ops2 : list Op) :
  offered handler (ops1 ++ ops2) = offered handler ops1 ++ offered handler ops2.
Proof. unfold offered. apply flat_map_app. Qed.

(** The hand-off of the session receives what its handler offers. *)
Lemma step_queue (op : Op) (ws : WebSocket) :
  queue_ (state_of (step op ws))
  = SBQ.offers (offered (incoming_message_handler_ ws) [op]) (queue_ ws).
Proof.
  destruct op as [message | wsi reason in_ | | created connected];
    unfold_methods; unfold state_of, offered; simpl flat_map;
    [ destruct (writable_ ws)
    | destruct (N.eqb wsi nullptr);
      [ | destruct reason;
          [ | | | destruct (incoming_message_handler_ ws) eqn:Hh
            | destruct (enqueued_messages_ ws) eqn:Hq | ] ]
    |
    | destruct (connection_state_ ws);
      [ destruct (N.eqb connected nullptr) | | ] ];
    simpl; rewrite ?Hq, ?app_nil_r; simpl; try reflexivity.
  destruct reason; reflexivity.
Qed.

Lemma run_queue (ops : list Op) (ws : WebSocket) :
  queue_ (state_of (run ops ws))
  = SBQ.offers (offered (incoming_message_handler_ ws) ops) (queue_ ws).
Proof.
  revert ws. induction ops as [|op ops IH]; intros ws; [reflexivity|].
  rewrite state_of_run_cons, IH, step_queue.
  rewrite (proj1 (proj2 (proj2 (proj2 (proj2 (step_frame op ws)))))).
  change (op :: ops) with ([op] ++ ops). rewrite offered_app.
  symmetry. apply offers_app.
Qed.

(** A consumer of the session's hand-off, its flag cleared, returns the
    last value offered in the first turn in which the handler offers
    anything, and stays blocked when there is no such turn. *)
Lemma session_wait_first_offer (env : list (list Op)) (w : World) :
  SBQ.ready_to_unlock_ (queue_ (fst w)) = false ->
  response_of
    (match await interleave (fun w' => SBQ.ready_to_unlock_ (queue_ (fst w')))
                 (fun w' => w') env w with
     | Returned _ w' rest => Returned (SBQ.element_ (queue_ (fst w'))) w' rest
     | Blocked w' => Blocked w'
     end)
  = first_offer (map (offered (incoming_message_handler_ (fst w))) env).
Proof.
  revert w. induction env as [|turn env IH]; intros w Hq; simpl; rewrite Hq.
  - reflexivity.
  - pose proof (run_queue turn (fst w)) as Hrun.
    pose proof (proj1 (proj2 (proj2 (proj2 (proj2 (run_frame turn (fst w)))))))
      as Hhandler.
    destruct (offered (incoming_message_handler_ (fst w)) turn) as [|e es] eqn:Ho.
    + rewrite IH.
      * rewrite interleave_run. simpl fst. rewrite Hhandler. reflexivity.
      * rewrite interleave_run. simpl fst. rewrite Hrun. exact Hq.
    + rewrite offers_cons_last in Hrun.
      assert (Hw : queue_ (fst (interleave turn w))
                   = SBQ.Offer (last es e) (queue_ (fst w)))
        by (rewrite interleave_run; exact Hrun).
      destruct env; cbn -[interleave]; rewrite Hw; cbn -[interleave];
        rewrite ?Hw; reflexivity.
Qed.

Lemma GetQueue_Take_first_offer (env : list (list Op)) (w : World) :
  response_of (GetQueue_Take env w)
  = first_offer (map (offered (incoming_message_handler_ (fst w))) env).
Proof.
  unfold GetQueue_Take, SBQ.Take.
  exact (session_wait_first_offer env
           (with_queue (SBQ.Take_reset (queue_ (fst w))) (fst w), snd w)
           eq_refl).
Qed.

(** X9.  What [SendSynchronousRequest] returns.  Not Connected: the empty
    string.  Connected: the last value the registered handler offers in
    the first turn of the other threads, after the call has started to
    wait, in which it offers anything; and the call blocks when there is
    no such turn.  Neither the request nor what the hand-off held before
    the call has any part in it: a value left over from an earlier call is
    never returned. *)
Theorem SendSynchronousRequest_returns_the_first_offer
  (request : string) (env : list (list Op)) (ws : WebSocket) :
  response_of (SendSynchronousRequest request env ws)
  = if WebSocketConnectState_eqb (connection_state_ ws) CONNECTED
    then first_offer (map (offered (incoming_message_handler_ ws)) env)
    else Some EmptyString.
Proof.
  unfold SendSynchronousRequest.
  destruct (WebSocketConnectState_eqb (connection_state_ ws) CONNECTED);
    [|reflexivity].
  simpl negb. cbv iota.
  pose proof (proj1 (proj2 (proj2 (proj2 (proj2
               (step_frame (CallSendAsync request) ws)))))) as Hh.
  simpl step in Hh. unfold state_of in Hh.
  destruct (SendAsync request ws) as [[[] ws1] tr1]. simpl in Hh.
  rewrite GetQueue_Take_first_offer. simpl fst. rewrite Hh. reflexivity.
Qed.

(** X10.  The reply that comes too early.  When the other threads run
    between the return of [SendAsync] and the first statement of [Take],
    what the handler offers in that window is dropped by [Take]'s reset:
    the response is still the first offer made after the wait has begun,
    and with no such offer the call blocks although the reply was
    delivered.  With nothing running in the window the call is
    [SendSynchronousRequest]. *)
Theorem reply_before_Take_is_lost
  (request : string) (between : list Op) (env : list (list Op))
  (ws : WebSocket) :
  connection_state_ ws = CONNECTED ->
  response_of (SendSynchronousRequest_preempted request between env ws)
  = first_offer (map (offered (incoming_message_handler_ ws)) env)
  /\ SendSynchronousRequest_preempted request [] env ws
     = SendSynchronousRequest request env ws.
Proof.
  intros Hs. unfold SendSynchronousRequest_preempted, SendSynchronousRequest.
  rewrite Hs. simpl negb. cbv iota.
  pose proof (proj1 (proj2 (proj2 (proj2 (proj2
               (step_frame (CallSendAsync request) ws)))))) as Hh.
  simpl step in Hh. unfold state_of in Hh.
  destruct (SendAsync request ws) as [[[] ws1] tr1]. simpl in Hh.
  split.
  - rewrite GetQueue_Take_first_offer, interleave_run. simpl fst.
    rewrite (proj1 (proj2 (proj2 (proj2 (proj2 (run_frame between ws1)))))).
    rewrite Hh. reflexivity.
  - unfold interleave. simpl. rewrite app_nil_r. reflexivity.
Qed.

Lemma reply_before_Take_is_lost_witness :
  let writable := Callback 2%N LWS_CALLBACK_CLIENT_WRITEABLE EmptyString in
  let pong := Callback 2%N LWS_CALLBACK_CLIENT_RECEIVE "pong" in
  connection_state_ connected_session = CONNECTED
  /\ offered (incoming_message_handler_ connected_session) [writable; pong]
     = ["pong"]
  /\ response_of (SendSynchronousRequest_preempted "ping" [writable; pong]
                    [[]; [writable]] connected_session)
     = None.
Proof.
  cbv zeta. split; [reflexivity | split; [reflexivity|]].
  exact (proj1 (reply_before_Take_is_lost "ping"
                  [Callback 2%N LWS_CALLBACK_CLIENT_WRITEABLE EmptyString;
                   Callback 2%N LWS_CALLBACK_CLIENT_RECEIVE "pong"]
                  [[]; [Callback 2%N LWS_CALLBACK_CLIENT_WRITEABLE EmptyString]]
                  connected_session eq_refl)).
Defined.

(** ** Inbound messages *)

(** X11.  The Receive branch of the dispatcher, on a session with a
    handler: the handler is called once, under the session mutex, with the
    inbound bytes up to their first NUL; its offers go to the session's
    hand-off and nothing else of the session changes.  The message handed
    over holds no NUL, is a prefix of the inbound bytes, what it leaves
    out starts with a NUL, and bytes without a NUL are handed over
    whole. *)
Theorem Receive_hands_the_handler_a_C_string
  (wsi : ptr) (in_ : string) (h : WebSocketMessageHandler) (ws : WebSocket) :
  wsi <> nullptr ->
  incoming_message_handler_ ws = Some h ->
  let message := c_string in_ in
  OnWebSocketEvent wsi LWS_CALLBACK_CLIENT_RECEIVE in_ ws
  = (Normal 0%Z,
     with_queue (SBQ.offers (Handle h message) (queue_ ws)) ws,
     [pthread_mutex_lock; call_Handle message; pthread_mutex_unlock])
  /\ ~ In Ascii.zero (list_ascii_of_string message)
  /\ (exists rest,
        in_ = String.append message rest
        /\ (rest = EmptyString \/ exists r, rest = String Ascii.zero r))
  /\ (~ In Ascii.zero (list_ascii_of_string in_) -> message = in_).
Proof.
  intros Hwsi Hh message. apply N.eqb_neq in Hwsi.
  split; [|split; [apply c_string_no_NUL
                  | split; [apply c_string_prefix | apply c_string_without_NUL]]].
  unfold_methods. rewrite Hwsi, Hh. reflexivity.
Qed.

Lemma Receive_hands_the_handler_a_C_string_witness :
  let in_ := String.append "pong" (String Ascii.zero "tail") in
  2%N <> nullptr
  /\ incoming_message_handler_ connected_session = Some offering_handler
  /\ OnWebSocketEvent 2%N LWS_CALLBACK_CLIENT_RECEIVE in_ connected_session
     = (Normal 0%Z,
        with_queue (SBQ.Offer "pong" (queue_ connected_session)) connected_session,
        [pthread_mutex_lock; call_Handle "pong"; pthread_mutex_unlock]).
Proof.
  cbv zeta.
  assert (Hwsi : 2%N <> nullptr) by discriminate.
  split; [exact Hwsi | split; [reflexivity|]].
  exact (proj1 (Receive_hands_the_handler_a_C_string 2%N
                  (String.append "pong" (String Ascii.zero "tail"))
                  offering_handler connected_session Hwsi eq_refl)).
Defined.

(** ** Writable notifications *)

Lemma step_notifications (op : Op) (ws : WebSocket) :
  List.length (notifications (trace_of (step op ws)))
  = List.length (written (trace_of (step op ws)))
    + (if is_established op then 1 else 0).
Proof. step_cases op ws; try reflexivity. destruct reason; reflexivity. Qed.

(** X14.  The dispatcher keeps itself supplied with Writable callbacks: in
    every run, the requests for a writable notification are exactly one
    for each message written and one for each Established callback acted
    on. *)
Theorem one_notification_per_write_and_connection
  (ops : list Op) (ws : WebSocket) :
  List.length (notifications (trace_of (run ops ws)))
  = List.length (written (trace_of (run ops ws)))
    + List.length (filter is_established ops).
Proof.
  revert ws. induction ops as [|op ops IH]; intros ws; [reflexivity|].
  rewrite trace_of_run_cons, notifications_app, written_app, !length_app.
  rewrite IH, step_notifications. simpl filter.
  destruct (is_established op); simpl; lia.
Qed.

(** ** JsonRpcClient::Call *)

Lemma string_append_assoc (a b c : string) :
  String.append (String.append a b) c = String.append a (String.append b c).
Proof. induction a as [|x a IH]; simpl; congruence. Qed.

Lemma printf_without_params (id : Z) (method : string) :
  printf TEMPLATE_REQUEST_WITHOUT_PARAMS [arg_int id; arg_str method]
  = Some (request_text id method None).
Proof. cbn. rewrite !string_append_assoc. reflexivity. Qed.

Lemma printf_with_params (id : Z) (method params : string) :
  printf TEMPLATE_REQUEST_WITH_PARAMS
         [arg_int id; arg_str method; arg_str params]
  = Some (request_text id method (Some params)).
Proof. cbn. rewrite !string_append_assoc. reflexivity. Qed.

Lemma string_format_short (format : string) (args : list printf_arg)
  (text : string) :
  printf format args = Some text ->
  (Z.of_nat (String.length text) < INT_MAX)%Z ->
  string_format format args = Normal text.
Proof.
  intros Hp Hlen. unfold string_format. rewrite Hp. cbv zeta.
  destruct (Z.ltb_spec INT_MAX (Z.of_nat (String.length text))); [lia|].
  destruct (Z.eqb_spec (Z.of_nat (String.length text)) INT_MAX); [lia|].
  reflexivity.
Qed.

(** The parameters as the templates take them: none for an empty
    string. *)
Lemma Call_sends (method params : string) (env : list (list Op))
  (ws : WebSocket) (id : Z) :
  (id < INT_MAX)%Z ->
  let text := request_text (id + 1) method
                (match params with EmptyString => None | _ => Some params end) in
  (Z.of_nat (String.length text) < INT_MAX)%Z ->
  Call method params env (Some ws) id
  = ((id + 1)%Z, Normal (with_client (SendSynchronousRequest text env ws))).
Proof.
  intros Hid text Hlen. unfold Call.
  destruct (Z.leb_spec INT_MAX id); [lia|]. cbv zeta.
  destruct params as [|c params].
  - rewrite (string_format_short _ _ _ (printf_without_params _ _) Hlen).
    reflexivity.
  - rewrite (string_format_short _ _ _ (printf_with_params _ _ _) Hlen).
    reflexivity.
Qed.

Lemma SendSynchronousRequest_trace (request : string) (env : list (list Op))
  (ws : WebSocket) :
  connection_state_ ws = CONNECTED ->
  exists tr,
    snd (world_of (SendSynchronousRequest request env ws))
    = trace_of (SendAsync request ws) ++ tr.
Proof.
  intros Hs. unfold SendSynchronousRequest. rewrite Hs. simpl negb. cbv iota.
  unfold trace_of. destruct (SendAsync request ws) as [[[] ws1] tr1].
  unfold GetQueue_Take, SBQ.Take.
  match goal with
  | |- context [await interleave ?c ?p env ?w0] =>
      pose proof (await_basic c p env w0
                    (fun w1 => ex_intro _ [] (eq_sym (app_nil_r (snd w1)))))
        as Hspec;
      destruct (await interleave c p env w0) as [[] w' rest | w']
  end.
  - destruct Hspec as (_ & _ & Htr). exact Htr.
  - destruct Hspec as (_ & Htr). exact Htr.
Qed.

(** X12.  [Call] without a connection.  On a client with no session the
    call returns the empty string and leaves the request counter alone.
    On a session that is not Connected it also returns the empty string
    at once, with no effect on the session or the transport, but the
    request has been formatted and the counter has advanced: the id is
    used up. *)
Theorem Call_without_a_connection
  (method params : string) (env : list (list Op)) (ws : WebSocket) (id : Z) :
  connection_state_ ws <> CONNECTED ->
  (id < INT_MAX)%Z ->
  (Z.of_nat (String.length
     (request_text (id + 1) method
        (match params with EmptyString => None | _ => Some params end)))
   < INT_MAX)%Z ->
  Call method params env None id
  = (id, Normal (Returned EmptyString (None, []) env))
  /\ Call method params env (Some ws) id
     = ((id + 1)%Z, Normal (Returned EmptyString (Some ws, []) env)).
Proof.
  intros Hs Hid Hlen. split; [reflexivity|].
  rewrite (Call_sends method params env ws id Hid Hlen).
  unfold SendSynchronousRequest.
  destruct (connection_state_ ws); try reflexivity. now elim Hs.
Qed.

Lemma Call_without_a_connection_witness :
  let ws0 := fst (WebSocket_new "localhost" 8080%Z "json" "/jsonrpc") in
  connection_state_ ws0 <> CONNECTED
  /\ Call "Controller.1.status" EmptyString [] (Some ws0) 41
     = (42%Z, Normal (Returned EmptyString (Some ws0, []) [])).
Proof.
  cbv zeta.
  assert (Hs : connection_state_
                 (fst (WebSocket_new "localhost" 8080%Z "json" "/jsonrpc"))
               <> CONNECTED) by discriminate.
  split; [exact Hs|].
  refine (proj2 (Call_without_a_connection "Controller.1.status" EmptyString []
                   (fst (WebSocket_new "localhost" 8080%Z "json" "/jsonrpc"))
                   41 Hs _ _)); reflexivity.
Defined.

(** X13.  [Call] on a Connected, writable session.  The counter advances
    by one; the first thing the call does to the transport is to write,
    on the session's handle and as one text message, the request laid out
    by the template: the new counter value in decimal as the id, the
    method up to its first NUL and, unless [params] is the empty string,
    the parameters up to their first NUL; and the response is the first
    offer the handler makes while the call waits. *)
Theorem Call_writes_the_formatted_request
  (method params : string) (env : list (list Op)) (ws : WebSocket) (id : Z) :
  connection_state_ ws = CONNECTED ->
  writable_ ws = true ->
  (id < INT_MAX)%Z ->
  let text := request_text (id + 1) method
                (match params with EmptyString => None | _ => Some params end) in
  (Z.of_nat (String.length text) < INT_MAX)%Z ->
  exists o,
    Call method params env (Some ws) id = ((id + 1)%Z, Normal o)
    /\ response_of o
       = first_offer (map (offered (incoming_message_handler_ ws)) env)
    /\ exists tr,
         snd (world_of o)
         = [pthread_mutex_lock;
            lws_write (handle_ ws) text (String.length text) LWS_WRITE_TEXT;
            store F_writable;
            lws_callback_on_writable (handle_ ws);
            pthread_mutex_unlock] ++ tr.
Proof.
  intros Hs Hw Hid text Hlen.
  exists (with_client (SendSynchronousRequest text env ws)).
  split; [exact (Call_sends method params env ws id Hid Hlen)|].
  clearbody text.
  pose proof (GetQueue_Take_first_offer env) as Hfirst.
  destruct (SendSynchronousRequest_trace text env ws Hs) as [tr Htr].
  rewrite SendAsync_cases, Hw in Htr. unfold trace_of in Htr.
  cbn [snd] in Htr.
  split.
  - unfold SendSynchronousRequest. rewrite Hs. simpl negb. cbv iota.
    rewrite SendAsync_cases, Hw.
    match goal with
    | |- response_of (with_client ?o) = _ =>
        transitivity (response_of o); [destruct o; reflexivity|]
    end.
    rewrite Hfirst. reflexivity.
  - exists tr. rewrite <- Htr.
    destruct (SendSynchronousRequest text env ws); reflexivity.
Qed.

Lemma Call_writes_the_formatted_request_witness :
  let writable := Callback 2%N LWS_CALLBACK_CLIENT_WRITEABLE EmptyString in
  let reply := Callback 2%N LWS_CALLBACK_CLIENT_RECEIVE "ok" in
  let ready_session := state_of (step writable connected_session) in
  connection_state_ ready_session = CONNECTED
  /\ writable_ ready_session = true
  /\ exists o,
       Call "Controller.1.status" EmptyString [[reply]] (Some ready_session) 0
       = (1%Z, Normal o)
       /\ response_of o = Some "ok"
       /\ written (snd (world_of o))
          = [String.concat EmptyString
               ["{"; quoted "jsonrpc"; ":"; quoted "2.0"; ", ";
                quoted "id"; ":"; quoted "1"; ", ";
                quoted "method"; ":"; quoted "Controller.1.status"; "}"]].
Proof.
  cbv zeta. split; [reflexivity | split; [reflexivity|]].
  destruct (Call_writes_the_formatted_request "Controller.1.status" EmptyString
              [[Callback 2%N LWS_CALLBACK_CLIENT_RECEIVE "ok"]]
              (state_of (step (Callback 2%N LWS_CALLBACK_CLIENT_WRITEABLE
                                        EmptyString) connected_session))
              0 eq_refl eq_refl eq_refl eq_refl)
    as (o & Hcall & Hresp & _).
  exists o. split; [exact Hcall|]. split; [exact Hresp|].
  injection Hcall as <-. reflexivity.
Defined.

(** ** The hand-off, in full *)

Lemma handoff_wait_first_offer {E : Type} (env : list (list E)) (q : SBQ.t E) :
  SBQ.ready_to_unlock_ q = false ->
  response_of
    (match await SBQ.offers (fun q' => SBQ.ready_to_unlock_ q')
                 (fun q' => q') env q with
     | Returned _ q' rest => Returned (SBQ.element_ q') q' rest
     | Blocked q' => Blocked q'
     end)
  = first_offer env.
Proof.
  revert q. induction env as [|turn env IH]; intros q Hq; simpl; rewrite Hq.
  - reflexivity.
  - destruct turn as [|e es].
    + apply IH. exact Hq.
    + rewrite offers_cons_last. destruct env; reflexivity.
Qed.

Lemma Take_alone_first_offer {E : Type} (env : list (list E)) (q : SBQ.t E) :
  response_of (SBQ.Take_alone env q) = first_offer env.
Proof.
  unfold SBQ.Take_alone, SBQ.Take.
  exact (handoff_wait_first_offer env (SBQ.Take_reset q) eq_refl).
Qed.

(** X15.  [Take] in full.  Whatever the slot and the flag held when it
    was called, [Take] returns the last value offered in the first of its
    waits during which anything is offered, and it never returns when
    nothing is offered after it has begun.  After it has returned, the
    flag is still set and the slot still holds the value returned: the
    next [Take] starts by clearing the flag and waits for an offer of its
    own. *)
Theorem Take_returns_the_first_offer_after_its_reset
  (E : Type) (env : list (list E)) (q : SBQ.t E) :
  response_of (SBQ.Take_alone env q) = first_offer env
  /\ match SBQ.Take_alone env q with
     | Returned v q' rest =>
         q' = SBQ.Offer v q
         /\ response_of (SBQ.Take_alone rest q') = first_offer rest
     | Blocked q' => q' = SBQ.Take_reset q
     end.
Proof.
  split; [apply Take_alone_first_offer|].
  unfold SBQ.Take_alone at 1, SBQ.Take.
  assert (Hgen : forall q0 : SBQ.t E,
    SBQ.ready_to_unlock_ q0 = false ->
    match await SBQ.offers (fun w' => SBQ.ready_to_unlock_ w')
                (fun w' => w') env q0 with
    | Returned _ w' rest =>
        w' = SBQ.Offer (SBQ.element_ w') q
        /\ response_of (SBQ.Take_alone rest w') = first_offer rest
    | Blocked w' => w' = q0
    end).
  { induction env as [|turn env IH]; intros q0 Hq0; simpl; rewrite Hq0;
      [reflexivity|].
    destruct turn as [|e es].
    - apply IH. exact Hq0.
    - rewrite offers_cons_last.
      destruct env as [|turn' env'];
        (split; [reflexivity | apply Take_alone_first_offer]). }
  specialize (Hgen (SBQ.Take_reset q) eq_refl).
  destruct (await SBQ.offers (fun w' => SBQ.ready_to_unlock_ w')
                  (fun w' => w') env (SBQ.Take_reset q))
    as [[] w' rest | w']; exact Hgen.
Qed.
